(** * cntrlF task pane: a shallow embedding of [src/taskpane/taskpane.ts]

    The task pane receives partial transcripts over a WebSocket and
    highlights the cells of the active worksheet that contain the
    transcript.  This file embeds the module state ([ws], [bufferText],
    [autoSearchThreshold]), the part of the DOM and of the Excel object
    model the handlers touch, and the handlers themselves, and proves the
    properties stated about them. *)

From Stdlib Require Import QArith Qminmax Ascii String.
From stdpp Require Import gmap list sorting.

Local Open Scope nat_scope.
Set Warnings "-register-all".

(* ===================================================================== *)
(** ** JavaScript values                                                  *)
(* ===================================================================== *)

(** A JavaScript string is a sequence of UTF-16 code units; [length] is
    the number of code units. *)
Abbreviation jsstring := (list N).

(** An ASCII literal as a JavaScript string (one code unit per character). *)
Definition str (s : string) : jsstring :=
  map N_of_ascii (list_ascii_of_string s).

(** ECMAScript WhiteSpace and LineTerminator code points, the ones
    [String.prototype.trim] strips: TAB, LF, VT, FF, CR, SP, NBSP, U+1680,
    U+2000..U+200A, U+2028, U+2029, U+202F, U+205F, U+3000 and U+FEFF. *)
Definition is_white_space (u : N) : bool :=
  ((u =? 9) || (u =? 10) || (u =? 11) || (u =? 12) || (u =? 13) ||
   (u =? 32) || (u =? 160) || (u =? 5760) ||
   ((8192 <=? u) && (u <=? 8202)) ||
   (u =? 8232) || (u =? 8233) || (u =? 8239) || (u =? 8287) ||
   (u =? 12288) || (u =? 65279))%N.

Fixpoint trimStart (s : jsstring) : jsstring :=
  match s with
  | [] => []
  | u :: s' => if is_white_space u then trimStart s' else s
  end.

Definition trimEnd (s : jsstring) : jsstring := rev (trimStart (rev s)).

(** [s.trim()] *)
Definition trim (s : jsstring) : jsstring := trimEnd (trimStart s).

(** [s.startsWith(q)] *)
Fixpoint startsWith (s q : jsstring) : bool :=
  match q, s with
  | [], _ => true
  | _ :: _, [] => false
  | a :: q', b :: s' => (a =? b)%N && startsWith s' q'
  end.

(** [s.includes(q)]: [q] occurs in [s] at some position. *)
Fixpoint includes (s q : jsstring) : bool :=
  startsWith s q ||
  match s with
  | [] => false
  | _ :: s' => includes s' q
  end.

(** A JavaScript number, up to the order of its value: every double is
    NaN, an infinity or a (dyadic) rational; [Math.max] and [>=] depend on
    nothing else (both zeros are [Finite 0]). *)
Inductive number : Type :=
  | NaN
  | PosInfinity
  | NegInfinity
  | Finite (q : Q).

(** [a >= b] on numbers. *)
Definition number_ge (a b : number) : bool :=
  match a, b with
  | NaN, _ | _, NaN => false
  | PosInfinity, _ => true
  | _, NegInfinity => true
  | NegInfinity, _ => false
  | _, PosInfinity => false
  | Finite x, Finite y => Qle_bool y x
  end.

(** [a < b] on numbers. *)
Definition number_lt (a b : number) : bool :=
  match a, b with
  | NaN, _ | _, NaN => false
  | _, NegInfinity => false
  | NegInfinity, _ => true
  | PosInfinity, _ => false
  | _, PosInfinity => true
  | Finite x, Finite y => negb (Qle_bool y x)
  end.

(** [Math.max(a, b)]: NaN if either argument is. *)
Definition Math_max (a b : number) : number :=
  match a, b with
  | NaN, _ | _, NaN => NaN
  | _, _ => if number_ge a b then a else b
  end.

(** The number of an array or string length. *)
Definition of_length (n : nat) : number := Finite (inject_Z (Z.of_nat n)).

(** Decimal digits of an array length, as a template literal prints it. *)
Fixpoint digits (fuel n : nat) (acc : jsstring) : jsstring :=
  match fuel with
  | 0 => acc
  | S fuel' =>
      let acc' := (48 + N.of_nat (n mod 10))%N :: acc in
      if n / 10 =? 0 then acc' else digits fuel' (n / 10) acc'
  end.

Definition length_to_string (n : nat) : jsstring := digits (S n) n [].

(** The result of [JSON.parse]. *)
Inductive JSON : Type :=
  | JNull
  | JBoolean (b : bool)
  | JNumber (x : number)
  | JString (s : jsstring)
  | JArray (l : list JSON)
  | JObject (members : gmap jsstring JSON).

(** Property read [msg.key], for the two keys the message handler reads,
    [type] and [text].  Neither is an index, [length] or a member of a
    built-in prototype, so only an object's own members can supply it:
    the outer [None] is the TypeError of reading a property of [null], the
    inner [None] is [undefined]. *)
Definition get (msg : JSON) (key : jsstring) : option (option JSON) :=
  match msg with
  | JNull => None
  | JObject members => Some (members !! key)
  | _ => Some None
  end.

(** The value of a worksheet cell as [Range.values] delivers it ([any]). *)
Inductive CellValue : Type :=
  | VNull
  | VUndefined
  | VBoolean (b : bool)
  | VNumber (x : number)
  | VString (s : jsstring).

(** The primitives of the JavaScript engine that the model does not
    define: Unicode lower-casing, number formatting, JSON parsing (with
    [None] for a SyntaxError) and string-to-number conversion. *)
Class Host : Type := {
  toLowerCase : jsstring -> jsstring;
  NumberToString : number -> jsstring;
  JSON_parse : jsstring -> option JSON;
  StringToNumber : jsstring -> number
}.

(** Lower-casing of the code units [A]..[Z]; what [toLowerCase] does on a
    string of ASCII characters. *)
Definition ascii_lower (u : N) : N :=
  if ((65 <=? u) && (u <=? 90))%N then (u + 32)%N else u.

Definition is_ascii (u : N) : bool := (u <? 128)%N.

(** A host agrees with ECMAScript on ASCII text. *)
Definition lowers_ascii (H : Host) : Prop :=
  forall s : jsstring,
    forallb is_ascii s = true -> toLowerCase s = map ascii_lower s.

(* ===================================================================== *)
(** ** The worksheet, the document and the module state                   *)
(* ===================================================================== *)

(** The used range after [used.load("values, rowCount, columnCount")]. *)
Record UsedRange : Type := {
  values : list (list CellValue);
  rowCount : nat;
  columnCount : nat
}.

(** The active worksheet: its used range, the fill colour of each cell
    that has one, and the selected cell if the selection is one cell.
    Cells are addressed as [Range.getCell] does, by row and column offset
    from the top-left cell of the used range. *)
Record Worksheet : Type := {
  usedRange : UsedRange;
  fill : gmap (nat * nat) jsstring;
  selection : option (nat * nat)
}.

(** The elements of the task pane the handlers write: the text of
    [#status] and [#live], and the [disabled] flag of the two buttons. *)
Record Document : Type := {
  status : jsstring;
  live : jsstring;
  connect_disabled : bool;
  disconnect_disabled : bool
}.

(** [WebSocket.readyState] *)
Inductive ReadyState : Type := CONNECTING | OPEN | CLOSING | CLOSED.

(** The module-level variables together with the document, the sheet and
    the sockets created so far (by handle). *)
Record State : Type := {
  ws : option nat;
  bufferText : jsstring;
  autoSearchThreshold : number;
  document : Document;
  sheet : Worksheet;
  sockets : gmap nat ReadyState
}.

Definition HIGHLIGHT_COLOR : jsstring := str "yellow".

Definition left_quote : N := 8220%N.   (* U+201C *)
Definition right_quote : N := 8221%N.  (* U+201D *)

(** [setStatus(msg)] *)
Definition setStatus (msg : jsstring) (st : State) : State :=
  {| ws := ws st; bufferText := bufferText st;
     autoSearchThreshold := autoSearchThreshold st;
     document :=
       {| status := msg; live := live (document st);
          connect_disabled := connect_disabled (document st);
          disconnect_disabled := disconnect_disabled (document st) |};
     sheet := sheet st; sockets := sockets st |}.

(** [setLive(text)] *)
Definition setLive (text : jsstring) (st : State) : State :=
  {| ws := ws st; bufferText := bufferText st;
     autoSearchThreshold := autoSearchThreshold st;
     document :=
       {| status := status (document st); live := text;
          connect_disabled := connect_disabled (document st);
          disconnect_disabled := disconnect_disabled (document st) |};
     sheet := sheet st; sockets := sockets st |}.

Definition set_buttons (c d : bool) (st : State) : State :=
  {| ws := ws st; bufferText := bufferText st;
     autoSearchThreshold := autoSearchThreshold st;
     document :=
       {| status := status (document st); live := live (document st);
          connect_disabled := c; disconnect_disabled := d |};
     sheet := sheet st; sockets := sockets st |}.

Definition set_sheet (sh : Worksheet) (st : State) : State :=
  {| ws := ws st; bufferText := bufferText st;
     autoSearchThreshold := autoSearchThreshold st;
     document := document st; sheet := sh; sockets := sockets st |}.

Definition set_bufferText (text : jsstring) (st : State) : State :=
  {| ws := ws st; bufferText := text;
     autoSearchThreshold := autoSearchThreshold st;
     document := document st; sheet := sheet st; sockets := sockets st |}.

Definition set_threshold (t : number) (st : State) : State :=
  {| ws := ws st; bufferText := bufferText st;
     autoSearchThreshold := t;
     document := document st; sheet := sheet st; sockets := sockets st |}.

Definition set_ws (h : option nat) (socks : gmap nat ReadyState) (st : State)
  : State :=
  {| ws := h; bufferText := bufferText st;
     autoSearchThreshold := autoSearchThreshold st;
     document := document st; sheet := sheet st; sockets := socks |}.

(* ===================================================================== *)
(** ** The Excel operations the handlers use                               *)
(* ===================================================================== *)

(** A cell of the range [used]. *)
Definition in_range (used : UsedRange) (rc : nat * nat) : Prop :=
  rc.1 < rowCount used /\ rc.2 < columnCount used.

#[global] Instance in_range_dec used rc : Decision (in_range used rc).
Proof. unfold in_range. apply _. Defined.

(** [used.format.fill.clear()]: no cell of the range keeps a fill. *)
Definition fill_clear (used : UsedRange) (m : gmap (nat * nat) jsstring)
  : gmap (nat * nat) jsstring :=
  filter (fun kv => ~ in_range used kv.1) m.

(** [used.getCell(r, c).format.fill.color = color] *)
Definition set_fill_color (color : jsstring) (m : gmap (nat * nat) jsstring)
    (rc : nat * nat) : gmap (nat * nat) jsstring :=
  <[rc := color]> m.

(** [row[c]]: [undefined] past the end of the array. *)
Definition index (row : list CellValue) (c : nat) : CellValue :=
  match row !! c with
  | Some v => v
  | None => VUndefined
  end.

(** [v != null] (loose: false for [null] and for [undefined]). *)
Definition not_nullish (v : CellValue) : bool :=
  match v with
  | VNull | VUndefined => false
  | _ => true
  end.

Section Taskpane.
Context {host : Host}.

(** [String(v)] *)
Definition String_of (v : CellValue) : jsstring :=
  match v with
  | VNull => str "null"
  | VUndefined => str "undefined"
  | VBoolean true => str "true"
  | VBoolean false => str "false"
  | VNumber x => NumberToString x
  | VString s => s
  end.

(** The test of line 44. *)
Definition is_hit (query : jsstring) (cellVal : CellValue) : bool :=
  not_nullish cellVal && includes (toLowerCase (String_of cellVal)) query.

(** The inner loop, [for (c; c < columnCount; c++)], with [n] iterations
    left.  [vals[r][c]] throws a TypeError when [vals[r]] is [undefined]:
    the result is then [None]. *)
Fixpoint for_c (vals : list (list CellValue)) (query : jsstring)
    (r c n : nat) (hits : list (nat * nat)) : option (list (nat * nat)) :=
  match n with
  | 0 => Some hits
  | S n' =>
      match vals !! r with
      | None => None
      | Some row =>
          let cellVal := index row c in
          for_c vals query r (S c) n'
            (if is_hit query cellVal then hits ++ [(r, c)] else hits)
      end
  end.

(** The outer loop, [for (r; r < rowCount; r++)], with [n] iterations left. *)
Fixpoint for_r (vals : list (list CellValue)) (query : jsstring)
    (cc r n : nat) (hits : list (nat * nat)) : option (list (nat * nat)) :=
  match n with
  | 0 => Some hits
  | S n' =>
      match for_c vals query r 0 cc hits with
      | None => None
      | Some hits' => for_r vals query cc (S r) n' hits'
      end
  end.

(** Lines 39-48: the array [hits]. *)
Definition scan (used : UsedRange) (query : jsstring)
  : option (list (nat * nat)) :=
  for_r (values used) query (columnCount used) 0 (rowCount used) [].

(** [!needle || !needle.trim()] *)
Definition is_blank (needle : jsstring) : bool :=
  bool_decide (needle = []) || bool_decide (trim needle = []).

Definition found_message (n : nat) (needle : jsstring) : jsstring :=
  str "Found " ++ length_to_string n ++ str " match(es) for " ++
  [left_quote] ++ needle ++ [right_quote] ++ str ".".

Definition no_matches_message (needle : jsstring) : jsstring :=
  str "No matches for " ++ [left_quote] ++ needle ++ [right_quote] ++ str ".".

(** [highlightMatches(needle)], one invocation run to completion.  [None]
    is a rejected promise: the scan threw before anything was written. *)
Definition highlightMatches (needle : jsstring) (st : State) : option State :=
  if is_blank needle then Some st
  else
    let query := toLowerCase (trim needle) in
    let used := usedRange (sheet st) in
    match scan used query with
    | None => None
    | Some hits =>
        let cleared := fill_clear used (fill (sheet st)) in
        let filled := foldl (set_fill_color HIGHLIGHT_COLOR) cleared hits in
        match hits with
        | first :: _ =>
            Some (setStatus (found_message (length hits) needle)
                    (set_sheet {| usedRange := used; fill := filled;
                                  selection := Some first |} st))
        | [] =>
            Some (setStatus (no_matches_message needle)
                    (set_sheet {| usedRange := used; fill := filled;
                                  selection := selection (sheet st) |} st))
        end
    end.

(** [clearHighlights()] *)
Definition clearHighlights (st : State) : State :=
  let used := usedRange (sheet st) in
  set_sheet {| usedRange := used;
               fill := fill_clear used (fill (sheet st));
               selection := selection (sheet st) |} st.

(** [msg.type === "partial"] *)
Definition is_partial (ty : option JSON) : bool :=
  match ty with
  | Some (JString s) => bool_decide (s = str "partial")
  | _ => false
  end.

(** [ws.onmessage], given [evt.data].  The first component lists the
    arguments of the calls of [highlightMatches] the handler made.  Every
    exception, of the parser, of the property reads or of the highlight
    routine, ends in the empty [catch]. *)
Definition ws_onmessage (data : jsstring) (st : State)
  : list jsstring * State :=
  match JSON_parse data with
  | None => ([], st)
  | Some msg =>
      match get msg (str "type") with
      | None => ([], st)
      | Some ty =>
          if is_partial ty then
            match get msg (str "text") with
            | Some (Some (JString text)) =>
                let st1 := setLive text (set_bufferText text st) in
                if number_ge (of_length (length (bufferText st1)))
                     (autoSearchThreshold st1)
                then
                  ([bufferText st1],
                   match highlightMatches (bufferText st1) st1 with
                   | Some st2 => st2
                   | None => st1
                   end)
                else ([], st1)
            | _ => ([], st)
            end
          else ([], st)
      end
  end.

(** [ws.onopen], [ws.onclose] and [ws.onerror] *)
Definition ws_onopen (st : State) : State :=
  set_buttons true false (setStatus (str "Connected to local STT server.") st).

Definition ws_onclose (st : State) : State :=
  set_buttons false true (setStatus (str "Disconnected.") st).

Definition ws_onerror (st : State) : State :=
  setStatus
    (str "Unable to connect. Make sure the Python server is running on :8000.")
    st.

(** [connect()]: [new WebSocket(url)] is a fresh socket, CONNECTING. *)
Definition connect (st : State) : State :=
  let is_open :=
    match ws st with
    | Some h =>
        match sockets st !! h with
        | Some OPEN => true
        | _ => false
        end
    | None => false
    end in
  if is_open then st
  else
    let h := fresh (dom (sockets st)) in
    set_ws (Some h) (<[h := CONNECTING]> (sockets st)) st.

(** [socket.close()]: CONNECTING and OPEN sockets start closing. *)
Definition close (rs : ReadyState) : ReadyState :=
  match rs with
  | CONNECTING | OPEN | CLOSING => CLOSING
  | CLOSED => CLOSED
  end.

(** [disconnect()] *)
Definition disconnect (st : State) : State :=
  match ws st with
  | Some h => set_ws None (alter close h (sockets st)) st
  | None => st
  end.

(** The [change] listener of [#threshold], given [th.value]. *)
Definition threshold_onchange (value : jsstring) (st : State) : State :=
  set_threshold (Math_max (Finite 0) (StringToNumber value)) st.

End Taskpane.

(* ===================================================================== *)
(** ** Vocabulary of the properties                                       *)
(* ===================================================================== *)

(** A string with no code unit other than white space (the empty string is one). *)
Definition whitespace_only (s : jsstring) : bool := forallb is_white_space s.

(** [q] occurs in [s] as a contiguous substring. *)
Definition substring_of (q s : jsstring) : Prop :=
  exists pre post : jsstring, s = pre ++ q ++ post.

(** The used range has its rows: [values] holds at least [rowCount] of
    them, as it does for every range Excel loads. *)
Definition rows_loaded (used : UsedRange) : Prop :=
  rowCount used <= length (values used).

(** The coordinates of [n] rows from row [r0], each [cc] columns wide, in
    row-major order. *)
Definition rows_from (r0 n cc : nat) : list (nat * nat) :=
  r ← seq r0 n; pair r <$> seq 0 cc.

Definition row_major (used : UsedRange) : list (nat * nat) :=
  rows_from 0 (rowCount used) (columnCount used).

(** Row-major precedence of coordinates. *)
Definition row_major_lt (a b : nat * nat) : Prop :=
  a.1 < b.1 \/ (a.1 = b.1 /\ a.2 < b.2).

Section Vocabulary.
Context {host : Host}.

(** The cell at [rc] passes the test of the scan. *)
Definition hit_at (vals : list (list CellValue)) (query : jsstring)
    (rc : nat * nat) : bool :=
  match vals !! rc.1 with
  | Some row => is_hit query (index row rc.2)
  | None => false
  end.

(** The cell at [(r, c)] holds a value, and the text of the value,
    lower-cased, contains [query]. *)
Definition cell_matches (used : UsedRange) (query : jsstring)
    (rc : nat * nat) : Prop :=
  exists (row : list CellValue) (v : CellValue),
    values used !! rc.1 = Some row /\ row !! rc.2 = Some v /\
    v <> VNull /\ v <> VUndefined /\
    substring_of query (toLowerCase (String_of v)).

(** The matches found when the coordinates are visited in the order of
    the list [order]. *)
Definition scan_in_order (used : UsedRange) (query : jsstring)
    (order : list (nat * nat)) : list (nat * nat) :=
  filter (fun rc => hit_at (values used) query rc = true) order.

(** The state [highlightMatches] leaves when the scan returned [hits]. *)
Definition highlighted (needle : jsstring) (hits : list (nat * nat))
    (st : State) : State :=
  let used := usedRange (sheet st) in
  setStatus
    (match hits with
     | [] => no_matches_message needle
     | _ :: _ => found_message (length hits) needle
     end)
    (set_sheet
       {| usedRange := used;
          fill := foldl (set_fill_color HIGHLIGHT_COLOR)
                    (fill_clear used (fill (sheet st))) hits;
          selection := match hits with
                       | [] => selection (sheet st)
                       | first :: _ => Some first
                       end |} st).

(** The frame [data] parses to an object whose [type] is the string
    "partial" and whose [text] is the string [text]. *)
Definition partial_frame (data text : jsstring) : Prop :=
  exists members : gmap jsstring JSON,
    JSON_parse data = Some (JObject members) /\
    members !! str "type" = Some (JString (str "partial")) /\
    members !! str "text" = Some (JString text).

(** The buffer has reached the threshold: [length >= autoSearchThreshold]. *)
Definition at_threshold (text : jsstring) (st : State) : bool :=
  number_ge (of_length (length text)) (autoSearchThreshold st).

(** The threshold after the listener ran on each of [vs] in turn. *)
Definition threshold_updates (vs : list jsstring) (st : State) : State :=
  foldl (fun s v => threshold_onchange v s) st vs.

End Vocabulary.

(** The module as loaded (lines 2-4), over a document and a sheet. *)
Definition initial (doc : Document) (sh : Worksheet) : State :=
  {| ws := None; bufferText := []; autoSearchThreshold := Finite 6;
     document := doc; sheet := sh; sockets := ∅ |}.

(* ===================================================================== *)
(** ** A small host and some sheets, for closed examples                  *)
(* ===================================================================== *)

(** [s] between double quotes. *)
Definition quoted (s : jsstring) : jsstring := [34%N] ++ s ++ [34%N].

(** The frame [{"type":ty,"text":text}]. *)
Definition frame (ty text : jsstring) : jsstring :=
  str "{" ++ quoted (str "type") ++ str ":" ++ quoted ty ++ str "," ++
  quoted (str "text") ++ str ":" ++ quoted text ++ str "}".

(** The characters of a JSON string up to its closing quote; escapes and
    control characters are not handled. *)
Fixpoint read_string (s acc : jsstring) : option (jsstring * jsstring) :=
  match s with
  | [] => None
  | u :: s' =>
      if (u =? 34)%N then Some (rev acc, s')
      else if ((u =? 92) || (u <? 32))%N then None
      else read_string s' (u :: acc)
  end.

(** The members ["k":"v"] of an object up to its closing brace; a later
    member replaces an earlier one of the same name. *)
Fixpoint read_members (fuel : nat) (s : jsstring) (m : gmap jsstring JSON)
  : option JSON :=
  match fuel with
  | 0 => None
  | S fuel' =>
      match s with
      | 34%N :: s1 =>
          match read_string s1 [] with
          | Some (k, 58%N :: 34%N :: s2) =>
              match read_string s2 [] with
              | Some (v, [125%N]) => Some (JObject (<[k := JString v]> m))
              | Some (v, 44%N :: s3) =>
                  read_members fuel' s3 (<[k := JString v]> m)
              | _ => None
              end
          | _ => None
          end
      | _ => None
      end
  end.

(** [JSON.parse] on objects whose members are plain strings, written
    without white space; everything else is rejected. *)
Definition parse_flat_object (s : jsstring) : option JSON :=
  match s with
  | [123%N; 125%N] => Some (JObject ∅)
  | 123%N :: s' => read_members (length s') s' ∅
  | _ => None
  end.

(** The value of a string of decimal digits. *)
Fixpoint read_digits (s : jsstring) (acc : nat) : option nat :=
  match s with
  | [] => Some acc
  | u :: s' =>
      if ((48 <=? u) && (u <=? 57))%N
      then read_digits s' (10 * acc + N.to_nat (u - 48))
      else None
  end.

(** A host for closed examples.  It agrees with ECMAScript on the inputs
    the examples use: ASCII text to lower-case, integers to format, flat
    JSON objects of strings to parse and strings of decimal digits to
    convert to a number.  The theorems hold for every host; this one only
    instantiates them. *)
Definition example_host : Host :=
  {| toLowerCase := map ascii_lower;
     NumberToString := fun x =>
       match x with
       | NaN => str "NaN"
       | PosInfinity => str "Infinity"
       | NegInfinity => str "-Infinity"
       | Finite q =>
           (if (Qnum q <? 0)%Z then str "-" else []) ++
           length_to_string (Z.to_nat (Z.abs (Qnum q) / Zpos (Qden q)))
       end;
     JSON_parse := parse_flat_object;
     StringToNumber := fun s =>
       match read_digits s 0 with
       | Some n => of_length n
       | None => NaN
       end |}.

Definition empty_document : Document :=
  {| status := []; live := []; connect_disabled := false;
     disconnect_disabled := true |}.

Definition sheet_of (vals : list (list CellValue)) (rows cols : nat)
  : Worksheet :=
  {| usedRange := {| values := vals; rowCount := rows; columnCount := cols |};
     fill := ∅; selection := None |}.

(** The sheet of the two search scenarios. *)
Definition fruit_values : list (list CellValue) :=
  [ [VString (str "apple"); VString (str "banana")];
    [VString (str "Cherry"); VString (str "grape")] ].

Definition fruit_range : UsedRange :=
  {| values := fruit_values; rowCount := 2; columnCount := 2 |}.

Definition fruit_state : State :=
  initial empty_document (sheet_of fruit_values 2 2).

(** A sheet whose cells containing "cat" are at (0,3) and (2,0), with an
    empty cell, a number and a boolean among the others. *)
Definition cat_values : list (list CellValue) :=
  [ [VString (str "dog"); VNull; VNumber (Finite 42); VString (str "CAT")];
    [VBoolean true; VString (str "bird"); VString []; VString (str "x")];
    [VString (str "Category"); VString (str "fish"); VNull; VNull] ].

Definition cat_state : State :=
  initial empty_document (sheet_of cat_values 3 4).

(** One row, "apple" and "pear". *)
Definition pear_state : State :=
  initial empty_document
    (sheet_of [[VString (str "apple"); VString (str "pear")]] 1 2).

(** [pear_state] after a search for "pear": the cell (0,1) is filled. *)
Definition stale_state : State :=
  highlighted (str "pear") [(0, 1)] pear_state.


(* ===================================================================== *)
(** ** The listeners as one event loop                                    *)
(* ===================================================================== *)

(** What the browser can deliver to the task pane: a click on one of the
    four buttons, a change of [#threshold] (with the value typed), and the
    four events of a socket (by handle). *)
Inductive Event : Type :=
  | ClickConnect
  | ClickDisconnect
  | ClickSearchNow
  | ClickClearHighlights
  | ChangeThreshold (value : jsstring)
  | SocketOpen (h : nat)
  | SocketMessage (h : nat) (data : jsstring)
  | SocketClose (h : nat)
  | SocketError (h : nat).

(** The browser sets [readyState] before it calls [onopen] or [onclose]. *)
Definition set_readyState (h : nat) (rs : ReadyState) (st : State) : State :=
  set_ws (ws st) (alter (fun _ => rs) h (sockets st)) st.

(** [ws] is [null] or one of the sockets created so far. *)
Definition ws_valid (st : State) : Prop :=
  forall h : nat, ws st = Some h -> is_Some (sockets st !! h).

(** Exactly one of the two connection buttons is enabled. *)
Definition buttons_exclusive (st : State) : Prop :=
  connect_disabled (document st) = negb (disconnect_disabled (document st)).

Definition is_change (e : Event) : Prop :=
  match e with
  | ChangeThreshold _ => True
  | _ => False
  end.

Definition is_open_or_close (e : Event) : Prop :=
  match e with
  | SocketOpen _ | SocketClose _ => True
  | _ => False
  end.

Section Events.
Context {host : Host}.

(** The listener of [#searchNow] (line 120): [highlightMatches(bufferText)].
    Nothing awaits the promise, so a rejection changes nothing. *)
Definition searchNow_onclick (st : State) : State :=
  default st (highlightMatches (bufferText st) st).

(** One event, handled by the listener that lines 75-107 and 118-123
    register for it.  The three socket handlers are the same closures for
    every socket [connect] creates. *)
Definition handle (e : Event) (st : State) : State :=
  match e with
  | ClickConnect => connect st
  | ClickDisconnect => disconnect st
  | ClickSearchNow => searchNow_onclick st
  | ClickClearHighlights => clearHighlights st
  | ChangeThreshold value => threshold_onchange value st
  | SocketOpen h => ws_onopen (set_readyState h OPEN st)
  | SocketMessage h data => (ws_onmessage data st).2
  | SocketClose h => ws_onclose (set_readyState h CLOSED st)
  | SocketError h => ws_onerror st
  end.

(** The events of a list, handled one after the other. *)
Definition run (events : list Event) (st : State) : State :=
  foldl (fun s e => handle e s) st events.

(** The event is a message whose frame is a partial transcript. *)
Definition is_partial_message (e : Event) : Prop :=
  exists (h : nat) (data text : jsstring),
    e = SocketMessage h data /\ partial_frame data text.

(** The writes a handler is made of: every handler leaves the state, or
    replaces buffer and live text, or stores the result of a search, or
    does one of the simple updates, or two of these in a row. *)
Inductive writes : State -> State -> Prop :=
  | writes_none st : writes st st
  | writes_buffer text st :
      writes st (setLive text (set_bufferText text st))
  | writes_search needle hits st :
      scan (usedRange (sheet st)) (toLowerCase (trim needle)) = Some hits ->
      writes st (highlighted needle hits st)
  | writes_clear st : writes st (clearHighlights st)
  | writes_threshold value st : writes st (threshold_onchange value st)
  | writes_sockets h socks st : writes st (set_ws h socks st)
  | writes_status msg st : writes st (setStatus msg st)
  | writes_buttons c d st :
      c = negb d -> writes st (set_buttons c d st)
  | writes_then st1 st2 st3 :
      writes st1 st2 -> writes st2 st3 -> writes st1 st3.

End Events.

(* ===================================================================== *)
(** ** Strings: trimming and containment                                  *)
(* ===================================================================== *)

Lemma whitespace_only_app (s t : jsstring) :
  whitespace_only (s ++ t) = whitespace_only s && whitespace_only t.
Proof. unfold whitespace_only. apply forallb_app. Qed.

Lemma whitespace_only_rev (s : jsstring) :
  whitespace_only (rev s) = whitespace_only s.
Proof.
  induction s as [|u s IH]; [reflexivity|].
  simpl rev. rewrite whitespace_only_app, IH. simpl.
  rewrite andb_true_r. apply andb_comm.
Qed.

Lemma trimStart_nil (s : jsstring) :
  trimStart s = [] <-> whitespace_only s = true.
Proof.
  induction s as [|u s IH]; simpl; [tauto|].
  destruct (is_white_space u); simpl; [exact IH|].
  split; discriminate.
Qed.

(** What [trimStart] leaves does not start with white space. *)
Lemma trimStart_head (s : jsstring) :
  trimStart s = [] \/
  exists u t, trimStart s = u :: t /\ is_white_space u = false.
Proof.
  induction s as [|u s IH]; simpl; [by left|].
  destruct (is_white_space u) eqn:E; [exact IH|].
  right. by exists u, s.
Qed.

Lemma trimStart_idem (s : jsstring) : trimStart (trimStart s) = trimStart s.
Proof.
  destruct (trimStart_head s) as [-> | (u & t & -> & E)]; [reflexivity|].
  simpl. by rewrite E.
Qed.

Lemma trimEnd_nil (s : jsstring) :
  trimEnd s = [] <-> whitespace_only s = true.
Proof.
  unfold trimEnd. rewrite <- (whitespace_only_rev s), <- trimStart_nil.
  split; intros E.
  - apply (f_equal (@rev N)) in E. by rewrite rev_involutive in E.
  - by rewrite E.
Qed.

Lemma trim_nil (s : jsstring) :
  trim s = [] <-> whitespace_only s = true.
Proof.
  unfold trim. rewrite trimEnd_nil, <- (trimStart_nil s).
  rewrite <- trimStart_nil. by rewrite trimStart_idem.
Qed.

(** [length_to_string] writes its argument in decimal: reading the digits
    back gives the number. *)
Lemma read_digits_digits (fuel : nat) :
  forall (n : nat) (acc : jsstring),
    n < fuel -> read_digits (digits fuel n acc) 0 = read_digits acc n.
Proof.
  induction fuel as [|fuel IH]; intros n acc Hn; [lia|].
  assert (Hd : forall a, read_digits ((48 + N.of_nat (n mod 10))%N :: acc) a
                         = read_digits acc (10 * a + n mod 10)).
  { intros a. assert (Hm : n mod 10 < 10) by (apply Nat.mod_upper_bound; lia).
    cbn [read_digits].
    replace ((48 <=? 48 + N.of_nat (n mod 10))%N) with true
      by (symmetry; apply N.leb_le; lia).
    replace ((48 + N.of_nat (n mod 10) <=? 57)%N) with true
      by (symmetry; apply N.leb_le; lia).
    cbn [andb].
    replace (N.to_nat (48 + N.of_nat (n mod 10) - 48)) with (n mod 10) by lia.
    reflexivity. }
  cbn [digits]. destruct (n / 10 =? 0) eqn:E.
  - apply Nat.eqb_eq in E. rewrite Hd.
    f_equal. pose proof (Nat.div_mod_eq n 10). lia.
  - apply Nat.eqb_neq in E. rewrite IH.
    + rewrite Hd. f_equal. pose proof (Nat.div_mod_eq n 10). lia.
    + pose proof (Nat.div_mod_eq n 10). lia.
Qed.

Lemma length_to_string_decimal (n : nat) :
  read_digits (length_to_string n) 0 = Some n.
Proof. unfold length_to_string. rewrite read_digits_digits; [done | lia]. Qed.

Section Proofs.
Context {host : Host}.

(** The guard of [highlightMatches] fires on the white-space-only strings. *)
Lemma is_blank_whitespace_only (needle : jsstring) :
  is_blank needle = whitespace_only needle.
Proof.
  unfold is_blank.
  destruct (whitespace_only needle) eqn:E.
  - apply trim_nil in E. rewrite E. simpl. apply orb_true_r.
  - apply orb_false_iff. split; apply bool_decide_eq_false.
    + intros ->. discriminate.
    + intros T. apply trim_nil in T. congruence.
Qed.

Lemma startsWith_spec (q s : jsstring) :
  startsWith s q = true <-> exists post, s = q ++ post.
Proof.
  revert s. induction q as [|a q IH]; intros s.
  - split; [intros _; by exists s | by destruct s].
  - destruct s as [|b s]; simpl.
    + split; [discriminate | intros [post E]; discriminate].
    + rewrite andb_true_iff, N.eqb_eq, IH. split.
      * intros [-> [post ->]]. by exists post.
      * intros [post E]. injection E as -> ->. split; [done | by exists post].
Qed.

Lemma includes_spec (s q : jsstring) :
  includes s q = true <-> substring_of q s.
Proof.
  unfold substring_of. induction s as [|b s IH].
  - change (includes [] q) with (startsWith [] q || false).
    rewrite orb_false_r, startsWith_spec. split.
    + intros [post E]. by exists [], post.
    + intros (pre & post & E). symmetry in E.
      apply app_eq_nil in E as [-> E]. apply app_eq_nil in E as [-> ->].
      by exists [].
  - change (includes (b :: s) q)
      with (startsWith (b :: s) q || includes s q).
    rewrite orb_true_iff, startsWith_spec, IH. split.
    + intros [[post E] | (pre & post & E)].
      * by exists [], post.
      * exists (b :: pre), post. by rewrite E.
    + intros (pre & post & E). destruct pre as [|b' pre].
      * left. by exists post.
      * right. injection E as -> ->. by exists pre, post.
Qed.

(* ===================================================================== *)
(** ** The scan                                                           *)
(* ===================================================================== *)

Lemma hit_at_row vals query r c row :
  vals !! r = Some row -> hit_at vals query (r, c) = is_hit query (index row c).
Proof. unfold hit_at. simpl. by intros ->. Qed.

Lemma for_c_spec vals query r row :
  vals !! r = Some row ->
  forall n c hits,
    for_c vals query r c n hits =
    Some (hits ++ filter (fun rc => hit_at vals query rc = true)
                         (pair r <$> seq c n)).
Proof.
  intros Hrow. induction n as [|n IH]; intros c hits; simpl.
  - by rewrite app_nil_r.
  - rewrite Hrow, IH, filter_cons, (hit_at_row _ _ _ _ _ Hrow).
    destruct (is_hit query (index row c)); simpl.
    + by rewrite <- app_assoc.
    + reflexivity.
Qed.

Lemma rows_from_S r0 n cc :
  rows_from r0 (S n) cc = (pair r0 <$> seq 0 cc) ++ rows_from (S r0) n cc.
Proof. reflexivity. Qed.

Lemma for_r_spec vals query cc :
  forall n r hits,
    r + n <= length vals ->
    for_r vals query cc r n hits =
    Some (hits ++ filter (fun rc => hit_at vals query rc = true)
                         (rows_from r n cc)).
Proof.
  induction n as [|n IH]; intros r hits Hlen; simpl.
  - by rewrite app_nil_r.
  - destruct (lookup_lt_is_Some_2 vals r) as [row Hrow]; [lia|].
    rewrite (for_c_spec _ _ _ _ Hrow), IH by lia.
    by rewrite rows_from_S, filter_app, app_assoc.
Qed.

(** The loops of lines 41-48 return, and return the matching coordinates
    in row-major order. *)
Lemma scan_spec used query :
  rows_loaded used ->
  scan used query = Some (scan_in_order used query (row_major used)).
Proof.
  intros Hlen. unfold scan. rewrite for_r_spec; [done|]. exact Hlen.
Qed.

Lemma elem_of_rows_from rc r0 n cc :
  rc ∈ rows_from r0 n cc <-> (r0 <= rc.1 < r0 + n) /\ rc.2 < cc.
Proof.
  unfold rows_from. rewrite list_elem_of_bind. split.
  - intros (r & Hc & Hr). apply list_elem_of_fmap in Hc as (c & -> & Hc).
    apply elem_of_seq in Hr, Hc. simpl. lia.
  - intros [Hr Hc]. exists rc.1. split.
    + apply list_elem_of_fmap. exists rc.2. split; [by destruct rc|].
      apply elem_of_seq. lia.
    + apply elem_of_seq. lia.
Qed.

Lemma elem_of_row_major used rc : rc ∈ row_major used <-> in_range used rc.
Proof. unfold row_major, in_range. rewrite elem_of_rows_from. lia. Qed.

Lemma hit_at_matches used query rc :
  hit_at (values used) query rc = true <-> cell_matches used query rc.
Proof.
  unfold hit_at, cell_matches, is_hit, index. split.
  - destruct (values used !! rc.1) as [row|]; [|discriminate].
    destruct (row !! rc.2) as [v|] eqn:Hv; [|discriminate].
    intros [Hn Hi]%andb_true_iff. exists row, v.
    repeat split; try done; try (intros ->; discriminate).
    by apply includes_spec.
  - intros (row & v & -> & -> & Hn & Hu & Hs).
    apply andb_true_iff. split; [by destruct v | by apply includes_spec].
Qed.

Lemma elem_of_scan_in_order used query order rc :
  rc ∈ scan_in_order used query order <->
  rc ∈ order /\ cell_matches used query rc.
Proof.
  unfold scan_in_order. rewrite list_elem_of_filter, hit_at_matches. tauto.
Qed.

End Proofs.

(* ===================================================================== *)
(** ** Row-major order                                                    *)
(* ===================================================================== *)

#[global] Instance row_major_lt_trans : Transitive row_major_lt.
Proof. intros a b c. unfold row_major_lt. lia. Qed.

Lemma row_major_lt_irrefl a : ~ row_major_lt a a.
Proof. unfold row_major_lt. lia. Qed.

Lemma seq_sorted a n : StronglySorted lt (seq a n).
Proof.
  revert a. induction n as [|n IH]; intros a; simpl; constructor; [apply IH|].
  apply Forall_forall. intros x Hx. apply elem_of_seq in Hx. lia.
Qed.

Lemma rows_from_sorted r0 n cc : StronglySorted row_major_lt (rows_from r0 n cc).
Proof.
  revert r0. induction n as [|n IH]; intros r0; [constructor|].
  rewrite rows_from_S. apply StronglySorted_app. split; [|split].
  - intros x1 x2 H1 H2.
    apply list_elem_of_fmap in H1 as (c & -> & _).
    apply elem_of_rows_from in H2. left. simpl. lia.
  - apply StronglySorted_fmap with (R1 := lt); [|apply seq_sorted].
    intros c1 c2 Hc. right. simpl. lia.
  - apply IH.
Qed.

Lemma filter_sorted {A} (R : relation A) (P : A -> Prop)
    `{!forall x, Decision (P x)} (l : list A) :
  StronglySorted R l -> StronglySorted R (filter P l).
Proof.
  induction 1 as [|x l Hs IH Hx]; [constructor|].
  rewrite filter_cons. case_decide; [|exact IH].
  constructor; [exact IH|].
  apply Forall_forall. intros y Hy. apply list_elem_of_filter in Hy as [_ Hy].
  rewrite Forall_forall in Hx. by apply Hx.
Qed.

(** The first element of a sorted list precedes every other one. *)
Lemma sorted_head_least {A} (R : relation A) (x y : A) (l : list A) :
  StronglySorted R (x :: l) -> y ∈ x :: l -> y = x \/ R x y.
Proof.
  intros Hs Hy. apply StronglySorted_cons in Hs as [Hx _].
  apply elem_of_cons in Hy as [-> | Hy]; [by left|].
  right. rewrite Forall_forall in Hx. by apply Hx.
Qed.

(* ===================================================================== *)
(** ** Fills                                                              *)
(* ===================================================================== *)

Lemma lookup_fill_clear (used : UsedRange) (m : gmap (nat * nat) jsstring) rc :
  fill_clear used m !! rc = if decide (in_range used rc) then None else m !! rc.
Proof.
  unfold fill_clear. case_decide as Hin.
  - apply map_lookup_filter_None. right. intros x _ Hn. by apply Hn.
  - destruct (m !! rc) as [x|] eqn:E.
    + by apply map_lookup_filter_Some.
    + apply map_lookup_filter_None. by left.
Qed.

Lemma lookup_foldl_fill (color : jsstring) (hits : list (nat * nat)) :
  forall (m : gmap (nat * nat) jsstring) rc,
    foldl (set_fill_color color) m hits !! rc =
    if decide (rc ∈ hits) then Some color else m !! rc.
Proof.
  induction hits as [|h hits IH]; intros m rc.
  - destruct (decide (rc ∈ [])) as [Hin|_]; [|done].
    by apply not_elem_of_nil in Hin.
  - change (foldl (set_fill_color color) m (h :: hits))
      with (foldl (set_fill_color color) (<[h := color]> m) hits).
    rewrite IH.
    destruct (decide (rc ∈ hits)) as [Hin|Hout].
    + rewrite decide_True; [done|]. by right.
    + destruct (decide (h = rc)) as [->|Hne].
      * rewrite lookup_insert_eq, decide_True; [done|]. by left.
      * rewrite lookup_insert_ne by done.
        rewrite decide_False; [done|].
        intros [->|?]%elem_of_cons; contradiction.
Qed.

(** Clearing and filling a range that is already cleared and filled with
    the same cells changes nothing. *)
Lemma refill_same (used : UsedRange) (color : jsstring)
    (hits : list (nat * nat)) (m : gmap (nat * nat) jsstring) :
  foldl (set_fill_color color)
    (fill_clear used (foldl (set_fill_color color) (fill_clear used m) hits))
    hits =
  foldl (set_fill_color color) (fill_clear used m) hits.
Proof.
  apply map_eq. intros rc.
  rewrite !lookup_foldl_fill, !lookup_fill_clear, !lookup_foldl_fill,
    !lookup_fill_clear.
  repeat case_decide; done.
Qed.

Section Routine.
Context {host : Host}.

Lemma highlightMatches_scan needle st hits :
  whitespace_only needle = false ->
  scan (usedRange (sheet st)) (toLowerCase (trim needle)) = Some hits ->
  highlightMatches needle st = Some (highlighted needle hits st).
Proof.
  intros Hb Hs. unfold highlightMatches.
  rewrite is_blank_whitespace_only, Hb, Hs. by destruct hits.
Qed.

(** On a loaded range the routine returns. *)
Lemma highlightMatches_nonblank needle st :
  whitespace_only needle = false ->
  rows_loaded (usedRange (sheet st)) ->
  highlightMatches needle st =
  Some (highlighted needle
          (scan_in_order (usedRange (sheet st)) (toLowerCase (trim needle))
             (row_major (usedRange (sheet st)))) st).
Proof.
  intros Hb Hl. apply highlightMatches_scan; [done|]. by apply scan_spec.
Qed.

Lemma highlightMatches_blank needle st :
  whitespace_only needle = true -> highlightMatches needle st = Some st.
Proof.
  intros Hb. unfold highlightMatches.
  by rewrite is_blank_whitespace_only, Hb.
Qed.

Lemma fill_highlighted needle hits st :
  fill (sheet (highlighted needle hits st)) =
  foldl (set_fill_color HIGHLIGHT_COLOR)
    (fill_clear (usedRange (sheet st)) (fill (sheet st))) hits.
Proof. reflexivity. Qed.

Lemma highlighted_twice needle hits st :
  highlighted needle hits (highlighted needle hits st) =
  highlighted needle hits st.
Proof.
  unfold highlighted, setStatus, set_sheet. simpl.
  rewrite refill_same. by destruct hits.
Qed.

End Routine.

(* ===================================================================== *)
(** ** The highlight routine                                              *)
(* ===================================================================== *)

Section Highlight.
Context {host : Host}.

Lemma elem_of_hits used query rc :
  rc ∈ scan_in_order used query (row_major used) <->
  in_range used rc /\ cell_matches used query rc.
Proof. by rewrite elem_of_scan_in_order, elem_of_row_major. Qed.

Lemma hits_sorted used query :
  StronglySorted row_major_lt (scan_in_order used query (row_major used)).
Proof. apply filter_sorted, rows_from_sorted. Qed.

(** C1: for a search string that is not blank, the array [hits] that
    [highlightMatches] builds over the used range holds exactly the
    coordinates (r, c) of the range whose cell has a value (not [null], not
    [undefined]) and whose value, converted with [String] and lower-cased,
    contains the lower-cased trimmed search string as a substring. *)
Theorem C1_match_set (needle : jsstring) (st : State) :
  whitespace_only needle = false ->
  rows_loaded (usedRange (sheet st)) ->
  exists hits : list (nat * nat),
    scan (usedRange (sheet st)) (toLowerCase (trim needle)) = Some hits /\
    highlightMatches needle st = Some (highlighted needle hits st) /\
    forall r c : nat,
      (r, c) ∈ hits <->
      r < rowCount (usedRange (sheet st)) /\
      c < columnCount (usedRange (sheet st)) /\
      exists (row : list CellValue) (v : CellValue),
        values (usedRange (sheet st)) !! r = Some row /\
        row !! c = Some v /\
        v <> VNull /\ v <> VUndefined /\
        substring_of (toLowerCase (trim needle)) (toLowerCase (String_of v)).
Proof.
  intros Hb Hl. eexists. split; [by apply scan_spec|]. split.
  - by apply highlightMatches_nonblank.
  - intros r c. rewrite elem_of_hits. unfold in_range, cell_matches. simpl.
    tauto.
Qed.

(** C2: the scan visits the used range in row-major order, so [hits] is
    in row-major order; when there is a match the first one in that order
    is selected, and with matches exactly at (2,0) and (0,3) the selected
    cell is (0,3).  Visiting the same coordinates in any other order finds
    the same matches. *)
Theorem C2_row_major_first (needle : jsstring) (st : State) :
  whitespace_only needle = false ->
  rows_loaded (usedRange (sheet st)) ->
  exists (hits : list (nat * nat)) (st' : State),
    scan (usedRange (sheet st)) (toLowerCase (trim needle)) = Some hits /\
    highlightMatches needle st = Some st' /\
    hits = scan_in_order (usedRange (sheet st)) (toLowerCase (trim needle))
             (row_major (usedRange (sheet st))) /\
    StronglySorted row_major_lt (row_major (usedRange (sheet st))) /\
    StronglySorted row_major_lt hits /\
    (forall first rest, hits = first :: rest ->
       selection (sheet st') = Some first /\
       forall rc, rc ∈ hits -> rc = first \/ row_major_lt first rc) /\
    (hits = [] -> selection (sheet st') = selection (sheet st)) /\
    ((forall rc, rc ∈ hits <-> rc = (2, 0) \/ rc = (0, 3)) ->
       selection (sheet st') = Some (0, 3)) /\
    (forall order : list (nat * nat),
       order ≡ₚ row_major (usedRange (sheet st)) ->
       scan_in_order (usedRange (sheet st)) (toLowerCase (trim needle)) order
       ≡ₚ hits).
Proof.
  intros Hb Hl.
  set (used := usedRange (sheet st)). set (query := toLowerCase (trim needle)).
  pose proof (hits_sorted used query) as Hsorted.
  set (hits := scan_in_order used query (row_major used)) in *.
  exists hits, (highlighted needle hits st).
  assert (Hfirst : forall first rest, hits = first :: rest ->
    selection (sheet (highlighted needle hits st)) = Some first /\
    forall rc, rc ∈ hits -> rc = first \/ row_major_lt first rc).
  { intros first rest E. rewrite E in *. split; [reflexivity|].
    intros rc Hrc. by apply (sorted_head_least _ _ _ rest). }
  split; [by apply scan_spec|].
  split; [by apply highlightMatches_nonblank|].
  split; [reflexivity|].
  split; [apply rows_from_sorted|].
  split; [exact Hsorted|].
  split; [exact Hfirst|].
  split; [by intros ->|].
  split.
  - intros Hset. destruct hits as [|first rest] eqn:E.
    + exfalso. apply (not_elem_of_nil (2, 0)). apply Hset. by left.
    + destruct (Hfirst first rest eq_refl) as [Hsel Hleast]. rewrite Hsel.
      assert (H03 : (0, 3) ∈ first :: rest) by (apply Hset; by right).
      assert (Hf : first ∈ first :: rest) by (by left).
      apply Hset in Hf as [-> | ->]; [|reflexivity].
      apply Hleast in H03 as [H03 | H03]; [discriminate|].
      unfold row_major_lt in H03. simpl in H03. lia.
  - intros order Hp. unfold hits, scan_in_order. by rewrite Hp.
Qed.

(** C3, as amended: for a search string that is not blank (one that has a
    code unit other than white space), one invocation clears the fill of
    every cell of the used range and then fills exactly the matching cells
    with the highlight colour: afterwards a cell of the used range is
    highlighted if it is a match and has no fill otherwise, whatever was
    filled before the call, and cells outside the range keep their fill. *)
Theorem C3_clear_then_highlight (needle : jsstring) (st : State) :
  whitespace_only needle = false ->
  rows_loaded (usedRange (sheet st)) ->
  exists (hits : list (nat * nat)) (st' : State),
    scan (usedRange (sheet st)) (toLowerCase (trim needle)) = Some hits /\
    highlightMatches needle st = Some st' /\
    usedRange (sheet st') = usedRange (sheet st) /\
    (forall rc, in_range (usedRange (sheet st)) rc ->
       fill_clear (usedRange (sheet st)) (fill (sheet st)) !! rc = None) /\
    fill (sheet st') =
      foldl (set_fill_color HIGHLIGHT_COLOR)
        (fill_clear (usedRange (sheet st)) (fill (sheet st))) hits /\
    (forall rc, in_range (usedRange (sheet st)) rc ->
       (fill (sheet st') !! rc = Some HIGHLIGHT_COLOR <-> rc ∈ hits) /\
       (rc ∉ hits -> fill (sheet st') !! rc = None)) /\
    (forall rc, ~ in_range (usedRange (sheet st)) rc ->
       (rc ∉ hits) /\ fill (sheet st') !! rc = fill (sheet st) !! rc).
Proof.
  intros Hb Hl.
  set (used := usedRange (sheet st)). set (query := toLowerCase (trim needle)).
  set (hits := scan_in_order used query (row_major used)).
  exists hits, (highlighted needle hits st).
  split; [by apply scan_spec|].
  split; [by apply highlightMatches_nonblank|].
  split; [reflexivity|].
  split.
  { intros rc Hin. rewrite lookup_fill_clear. by rewrite decide_True. }
  split; [reflexivity|].
  split.
  - intros rc Hin. rewrite fill_highlighted. fold used.
    rewrite lookup_foldl_fill.
    destruct (decide (rc ∈ hits)) as [Hh|Hh].
    + split; [tauto | contradiction].
    + rewrite lookup_fill_clear, decide_True by done.
      split; [split; [discriminate | contradiction] | done].
  - intros rc Hout.
    assert (Hh : rc ∉ hits).
    { intros Hh. apply elem_of_hits in Hh as [Hin _]. contradiction. }
    split; [exact Hh|]. rewrite fill_highlighted. fold used.
    rewrite lookup_foldl_fill, decide_False by done.
    by rewrite lookup_fill_clear, decide_False.
Qed.

(** C4: on a search string that is empty or holds nothing but white space
    [highlightMatches] returns at once: the fills, the selection, the
    status text and every other part of the state are as they were. *)
Theorem C4_blank_is_noop (needle : jsstring) (st : State) :
  whitespace_only needle = true ->
  highlightMatches needle st = Some st.
Proof.
  intros Hb. unfold highlightMatches.
  assert (Hguard : is_blank needle = true).
  { unfold is_blank. apply orb_true_iff. right.
    apply bool_decide_eq_true. by apply trim_nil. }
  by rewrite Hguard.
Qed.

(** C7: for a search string that is not blank the status text becomes
    "Found n match(es) for “needle”." with n the number of matches, in
    decimal, when there is a match, and "No matches for “needle”."
    when there is none, [needle] being the string as it was passed.  On
    the sheet [["apple","banana"],["Cherry","grape"]] the search for "an"
    leaves "Found 1 match(es) for “an”." with (0,1) the one highlighted
    cell and the selected one; the search for "xyz" leaves
    "No matches for “xyz”." with no cell highlighted. *)
Theorem C7_status_report :
  (forall (needle : jsstring) (st : State),
     whitespace_only needle = false ->
     rows_loaded (usedRange (sheet st)) ->
     exists (hits : list (nat * nat)) (st' : State),
       scan (usedRange (sheet st)) (toLowerCase (trim needle)) = Some hits /\
       highlightMatches needle st = Some st' /\
       (hits <> [] ->
          status (document st') =
          str "Found " ++ length_to_string (length hits) ++
          str " match(es) for " ++ [8220%N] ++ needle ++ [8221%N] ++ str ".") /\
       read_digits (length_to_string (length hits)) 0 = Some (length hits) /\
       (hits = [] ->
          status (document st') =
          str "No matches for " ++ [8220%N] ++ needle ++ [8221%N] ++ str ".")) /\
  (forall st : State,
     lowers_ascii host ->
     usedRange (sheet st) = fruit_range ->
     (exists st' : State,
        highlightMatches (str "an") st = Some st' /\
        status (document st') =
          str "Found 1 match(es) for " ++ [8220%N] ++ str "an" ++
          [8221%N] ++ str "." /\
        (forall rc, in_range fruit_range rc ->
           fill (sheet st') !! rc =
           if decide (rc = (0, 1)) then Some HIGHLIGHT_COLOR else None) /\
        selection (sheet st') = Some (0, 1)) /\
     (exists st' : State,
        highlightMatches (str "xyz") st = Some st' /\
        status (document st') =
          str "No matches for " ++ [8220%N] ++ str "xyz" ++ [8221%N] ++
          str "." /\
        (forall rc, in_range fruit_range rc ->
           fill (sheet st') !! rc = None) /\
        selection (sheet st') = selection (sheet st))).
Proof.
  split.
  - intros needle st Hb Hl.
    set (used := usedRange (sheet st)).
    set (hits := scan_in_order used (toLowerCase (trim needle))
                   (row_major used)).
    exists hits, (highlighted needle hits st).
    split; [by apply scan_spec|].
    split; [by apply highlightMatches_nonblank|].
    split; [|split].
    + intros Hne. simpl. by destruct hits.
    + apply length_to_string_decimal.
    + by intros ->.
  - intros st Hlow Hused.
    assert (Hl : rows_loaded (usedRange (sheet st))).
    { rewrite Hused. unfold rows_loaded. simpl. lia. }
    split.
    + exists (highlighted (str "an") [(0, 1)] st).
      assert (Hhits : scan_in_order fruit_range (toLowerCase (trim (str "an")))
                        (row_major fruit_range) = [(0, 1)]).
      { unfold scan_in_order, hit_at, is_hit. 
        rewrite (Hlow (trim (str "an"))) by reflexivity.
        change (row_major fruit_range) with [(0, 0); (0, 1); (1, 0); (1, 1)].
        rewrite !filter_cons, filter_nil. simpl.
        rewrite !Hlow by reflexivity. reflexivity. }
      split.
      { rewrite highlightMatches_nonblank by done. by rewrite Hused, Hhits. }
      split; [reflexivity|].
      split; [|reflexivity].
      intros rc Hin. rewrite fill_highlighted, Hused.
      rewrite lookup_foldl_fill, lookup_fill_clear.
      destruct (decide (in_range fruit_range rc)); [|contradiction].
      destruct (decide (rc = (0, 1))) as [->|Hne].
      * rewrite decide_True; [done|]. by left.
      * rewrite decide_False; [done|].
        intros Hrc. apply list_elem_of_singleton in Hrc. contradiction.
    + exists (highlighted (str "xyz") [] st).
      assert (Hhits : scan_in_order fruit_range
                        (toLowerCase (trim (str "xyz")))
                        (row_major fruit_range) = []).
      { unfold scan_in_order, hit_at, is_hit.
        rewrite (Hlow (trim (str "xyz"))) by reflexivity.
        change (row_major fruit_range) with [(0, 0); (0, 1); (1, 0); (1, 1)].
        rewrite !filter_cons, filter_nil. simpl.
        rewrite !Hlow by reflexivity. reflexivity. }
      split.
      { rewrite highlightMatches_nonblank by done. by rewrite Hused, Hhits. }
      split; [reflexivity|].
      split; [|reflexivity].
      intros rc Hin. rewrite fill_highlighted, Hused.
      change (fill_clear fruit_range (fill (sheet st)) !! rc = None).
      by rewrite lookup_fill_clear, decide_True.
Qed.

(** C8: a second invocation with the same search string, on the sheet as
    the first one left it, leaves the state as it is: the same fills, the
    same selected cell, the same status text. *)
Theorem C8_idempotent (needle : jsstring) (st : State) :
  rows_loaded (usedRange (sheet st)) ->
  exists st1 : State,
    highlightMatches needle st = Some st1 /\
    highlightMatches needle st1 = Some st1.
Proof.
  intros Hl. destruct (whitespace_only needle) eqn:Hb.
  - exists st. split; by apply highlightMatches_blank.
  - eexists. split; [by apply highlightMatches_nonblank|].
    rewrite highlightMatches_nonblank by done.
    f_equal. apply highlighted_twice.
Qed.

End Highlight.

(* ===================================================================== *)
(** ** The socket handlers                                                *)
(* ===================================================================== *)

Section Socket.
Context {host : Host}.

(** The routine writes the sheet and the status text, nothing else. *)
Lemma highlightMatches_frame needle st st' :
  highlightMatches needle st = Some st' ->
  ws st' = ws st /\ bufferText st' = bufferText st /\
  autoSearchThreshold st' = autoSearchThreshold st /\
  live (document st') = live (document st) /\
  sockets st' = sockets st.
Proof.
  unfold highlightMatches. destruct (is_blank needle).
  - by intros [= <-].
  - destruct (scan _ _) as [hits|]; [|discriminate].
    destruct hits; by intros [= <-].
Qed.

Lemma ws_onmessage_partial data text st :
  partial_frame data text ->
  ws_onmessage data st =
  let st1 := setLive text (set_bufferText text st) in
  if at_threshold text st
  then ([text], default st1 (highlightMatches text st1))
  else ([], st1).
Proof.
  intros (members & Hp & Hty & Htx). unfold ws_onmessage.
  rewrite Hp. simpl. rewrite Hty, Htx. simpl.
  reflexivity.
Qed.

Lemma ws_onmessage_other data st :
  (~ exists text, partial_frame data text) ->
  ws_onmessage data st = ([], st).
Proof.
  intros Hn. unfold ws_onmessage.
  destruct (JSON_parse data) as [msg|] eqn:Hp; [|done].
  destruct msg as [| b | x | s | l | members]; try done. simpl.
  destruct (members !! str "type") as [ty|] eqn:Hty; [|done].
  destruct ty as [| b | x | s | l | m]; try done. simpl.
  case_bool_decide as Hs; [|done]. subst s.
  destruct (members !! str "text") as [tx|] eqn:Htx; [|done].
  destruct tx as [| b | x | text | l | m]; try done.
  exfalso. apply Hn. exists text, members. done.
Qed.

(** C5: the message handler replaces the transcript buffer and the live
    text exactly on a frame that parses to an object whose [type] is
    "partial" and whose [text] is a string; on every other frame, one
    that does not parse or one of another shape, such as
    [{"type":"status","text":"ok"}], it changes nothing, the status text
    included, and calls nothing. *)
Theorem C5_only_partial_frames (data : jsstring) (st : State) :
  (forall text : jsstring,
     partial_frame data text ->
     bufferText (ws_onmessage data st).2 = text /\
     live (document (ws_onmessage data st).2) = text) /\
  ((~ exists text, partial_frame data text) ->
     ws_onmessage data st = ([], st)) /\
  (JSON_parse data = None -> ws_onmessage data st = ([], st)) /\
  (forall members : gmap jsstring JSON,
     JSON_parse data = Some (JObject members) ->
     members !! str "type" = Some (JString (str "status")) ->
     ws_onmessage data st = ([], st)).
Proof.
  split; [|split; [|split]].
  - intros text Hp. rewrite (ws_onmessage_partial _ _ _ Hp). simpl.
    destruct (at_threshold text st); simpl; [|done].
    destruct (highlightMatches _ _) as [st2|] eqn:Hh; simpl; [|done].
    apply highlightMatches_frame in Hh as (_ & Hb & _ & Hlive & _).
    by rewrite Hb, Hlive.
  - apply ws_onmessage_other.
  - intros Hp. apply ws_onmessage_other.
    intros (text & members & Hp' & _). congruence.
  - intros members Hp Hty. apply ws_onmessage_other.
    intros (text & members' & Hp' & Hty' & _).
    rewrite Hp in Hp'. injection Hp' as <-. rewrite Hty in Hty'.
    by vm_compute in Hty'.
Qed.

(** C6: on a partial frame the handler, having replaced the buffer, calls
    [highlightMatches] (once, on the new buffer) exactly when the length
    of the new buffer is at least the threshold; with threshold 6 the text
    "hello" is not searched for and the text "hello!" is. *)
Theorem C6_threshold_gate (data text : jsstring) (st : State) :
  partial_frame data text ->
  let st1 := setLive text (set_bufferText text st) in
  ((ws_onmessage data st).1 = [text] <->
     number_ge (of_length (length text)) (autoSearchThreshold st) = true) /\
  ((ws_onmessage data st).1 = [] <->
     number_ge (of_length (length text)) (autoSearchThreshold st) = false) /\
  (number_ge (of_length (length text)) (autoSearchThreshold st) = true ->
     (ws_onmessage data st).2 = default st1 (highlightMatches text st1)) /\
  (number_ge (of_length (length text)) (autoSearchThreshold st) = false ->
     (ws_onmessage data st).2 = st1) /\
  (autoSearchThreshold st = Finite 6 -> text = str "hello" ->
     (ws_onmessage data st).1 = []) /\
  (autoSearchThreshold st = Finite 6 -> text = str "hello!" ->
     (ws_onmessage data st).1 = [str "hello!"]).
Proof.
  intros Hp st1. rewrite (ws_onmessage_partial _ _ _ Hp).
  fold st1. unfold at_threshold.
  repeat split.
  - destruct (number_ge _ _); [done | discriminate].
  - by intros ->.
  - destruct (number_ge _ _); [discriminate | done].
  - by intros ->.
  - by intros ->.
  - by intros ->.
  - intros -> ->. reflexivity.
  - intros -> ->. reflexivity.
Qed.

Lemma disconnect_None st : ws st = None -> disconnect st = st.
Proof. intros Hws. unfold disconnect. by rewrite Hws. Qed.

Lemma ws_disconnect st : ws (disconnect st) = None.
Proof. unfold disconnect. by destruct (ws st) eqn:Hws. Qed.

(** C9: [disconnect] closes the socket that [ws] holds and sets [ws] to
    [null]; with [ws] already [null] it changes nothing, so a second call
    in a row never does anything. *)
Theorem C9_disconnect (st : State) :
  ws (disconnect st) = None /\
  disconnect (disconnect st) = disconnect st /\
  (ws st = None -> disconnect st = st) /\
  (forall h : nat, ws st = Some h ->
     sockets (disconnect st) !! h = close <$> sockets st !! h /\
     (forall rs, sockets (disconnect st) !! h = Some rs ->
        rs = CLOSING \/ rs = CLOSED) /\
     (forall h', h' <> h ->
        sockets (disconnect st) !! h' = sockets st !! h') /\
     bufferText (disconnect st) = bufferText st /\
     autoSearchThreshold (disconnect st) = autoSearchThreshold st /\
     document (disconnect st) = document st /\
     sheet (disconnect st) = sheet st).
Proof.
  split; [apply ws_disconnect|].
  split; [apply disconnect_None, ws_disconnect|].
  split; [apply disconnect_None|].
  intros h Hws. unfold disconnect. rewrite Hws. simpl.
  split; [by rewrite lookup_alter_eq|].
  split; [|split; [|done]].
  - intros rs. rewrite lookup_alter_eq.
    destruct (sockets st !! h) as [[]|]; simpl; intros [= <-]; auto.
  - intros h' Hne. by rewrite lookup_alter_ne.
Qed.

Lemma Math_max_zero_ge (v : number) :
  v <> NaN -> number_ge (Math_max (Finite 0) v) (Finite 0) = true.
Proof.
  intros Hv. destruct v as [| | | q]; try done. simpl.
  destruct (Qle_bool q 0) eqn:E; simpl; [done|].
  apply Qle_bool_iff. apply Qlt_le_weak, Qnot_le_lt.
  intros Hle. apply Qle_bool_iff in Hle. congruence.
Qed.

Lemma Math_max_zero_not_lt (v : number) :
  number_lt (Math_max (Finite 0) v) (Finite 0) = false.
Proof.
  destruct v as [| | | q]; try done. simpl.
  destruct (Qle_bool q 0) eqn:E; simpl; [done|].
  apply negb_false_iff, Qle_bool_iff. apply Qlt_le_weak, Qnot_le_lt.
  intros Hle. apply Qle_bool_iff in Hle. congruence.
Qed.

Lemma Math_max_zero_Qmax (q : Q) :
  exists q', Math_max (Finite 0) (Finite q) = Finite q' /\ (q' == Qmax 0 q)%Q.
Proof.
  simpl. destruct (Qle_bool q 0) eqn:E.
  - exists 0%Q. split; [done|]. symmetry. apply Q.max_l.
    by apply Qle_bool_iff.
  - exists q. split; [done|]. symmetry. apply Q.max_r.
    apply Qlt_le_weak, Qnot_le_lt. intros Hle.
    apply Qle_bool_iff in Hle. congruence.
Qed.

(** C10: the listener sets the threshold to [Math.max(0, v)] for the
    number [v] read from the input, which is never below 0: after any
    sequence of updates the threshold is not negative, and it is at least
    0 when every value read was a number (not NaN). *)
Theorem C10_threshold_nonnegative :
  (forall (value : jsstring) (st : State),
     autoSearchThreshold (threshold_onchange value st) =
     Math_max (Finite 0) (StringToNumber value)) /\
  (forall (value : jsstring) (st : State) (q : Q),
     StringToNumber value = Finite q ->
     exists q', autoSearchThreshold (threshold_onchange value st) = Finite q' /\
                (q' == Qmax 0 q)%Q) /\
  (forall (vs : list jsstring) (st : State),
     number_lt (autoSearchThreshold st) (Finite 0) = false ->
     number_lt (autoSearchThreshold (threshold_updates vs st)) (Finite 0)
     = false) /\
  (forall (vs : list jsstring) (st : State),
     number_ge (autoSearchThreshold st) (Finite 0) = true ->
     Forall (fun v => StringToNumber v <> NaN) vs ->
     number_ge (autoSearchThreshold (threshold_updates vs st)) (Finite 0)
     = true) /\
  (forall (doc : Document) (sh : Worksheet),
     number_ge (autoSearchThreshold (initial doc sh)) (Finite 0) = true).
Proof.
  split; [done|]. split; [|split; [|split]].
  - intros value st q Hq. simpl. rewrite Hq. apply Math_max_zero_Qmax.
  - intros vs. induction vs as [|v vs IH]; intros st Hst; [done|].
    apply IH. apply Math_max_zero_not_lt.
  - intros vs. induction vs as [|v vs IH]; intros st Hst Hvs; [done|].
    apply Forall_cons in Hvs as [Hv Hvs].
    apply IH; [|done]. by apply Math_max_zero_ge.
  - done.
Qed.

End Socket.

(* ===================================================================== *)
(** ** Closed instances                                                   *)
(* ===================================================================== *)

Lemma example_host_lowers_ascii : lowers_ascii example_host.
Proof. intros s _. reflexivity. Qed.

(** Case does not matter: "cat" is found in "Category", "CAT" and
    "concatenate", on every host that lower-cases ASCII as ECMAScript does. *)
Lemma cat_is_found (host : Host) :
  lowers_ascii host ->
  Forall (fun s => is_hit (toLowerCase (trim (str "cat"))) (VString s) = true)
    [str "Category"; str "CAT"; str "concatenate"].
Proof.
  intros Hlow. unfold is_hit. simpl String_of.
  repeat constructor; rewrite !Hlow by reflexivity; reflexivity.
Qed.

Lemma cat_scan :
  @scan example_host (usedRange (sheet cat_state))
    (@toLowerCase example_host (trim (str " Cat "))) = Some [(0, 3); (2, 0)].
Proof. vm_compute. reflexivity. Qed.

Lemma C1_match_set_witness :
  whitespace_only (str " Cat ") = false /\
  rows_loaded (usedRange (sheet cat_state)) /\
  exists hits : list (nat * nat),
    @scan example_host (usedRange (sheet cat_state))
      (@toLowerCase example_host (trim (str " Cat "))) = Some hits /\
    (0, 3) ∈ hits /\ (0, 1) ∉ hits.
Proof.
  assert (Hb : whitespace_only (str " Cat ") = false) by reflexivity.
  assert (Hl : rows_loaded (usedRange (sheet cat_state))).
  { unfold rows_loaded. simpl. lia. }
  split; [exact Hb|]. split; [exact Hl|].
  destruct (@C1_match_set example_host (str " Cat ") cat_state Hb Hl)
    as (hits & Hscan & _ & Hchar).
  exists hits. split; [exact Hscan|]. split.
  - apply Hchar. simpl. split; [lia|]. split; [lia|].
    eexists _, _. split; [reflexivity|]. split; [reflexivity|].
    split; [discriminate|]. split; [discriminate|].
    by exists [], [].
  - intros Hin. apply Hchar in Hin as (_ & _ & row & v & Hrow & Hv & Hn & _).
    simpl in Hrow. injection Hrow as <-. simpl in Hv. injection Hv as <-.
    by apply Hn.
Defined.

Lemma C2_row_major_first_witness :
  whitespace_only (str " Cat ") = false /\
  rows_loaded (usedRange (sheet cat_state)) /\
  exists st' : State,
    @highlightMatches example_host (str " Cat ") cat_state = Some st' /\
    selection (sheet st') = Some (0, 3).
Proof.
  assert (Hb : whitespace_only (str " Cat ") = false) by reflexivity.
  assert (Hl : rows_loaded (usedRange (sheet cat_state))).
  { unfold rows_loaded. simpl. lia. }
  split; [exact Hb|]. split; [exact Hl|].
  destruct (@C2_row_major_first example_host (str " Cat ") cat_state Hb Hl)
    as (hits & st' & Hscan & Hhm & _ & _ & _ & _ & _ & Hsel & _).
  exists st'. split; [exact Hhm|]. apply Hsel.
  rewrite cat_scan in Hscan. injection Hscan as <-.
  intros rc. rewrite elem_of_cons, list_elem_of_singleton. tauto.
Defined.

Lemma stale_scan :
  @scan example_host (usedRange (sheet stale_state))
    (@toLowerCase example_host (trim (str "apple"))) = Some [(0, 0)].
Proof. vm_compute. reflexivity. Qed.

Lemma C3_clear_then_highlight_witness :
  whitespace_only (str "apple") = false /\
  rows_loaded (usedRange (sheet stale_state)) /\
  fill (sheet stale_state) !! (0, 1) = Some HIGHLIGHT_COLOR /\
  exists st' : State,
    @highlightMatches example_host (str "apple") stale_state = Some st' /\
    fill (sheet st') !! (0, 1) = None /\
    fill (sheet st') !! (0, 0) = Some HIGHLIGHT_COLOR.
Proof.
  assert (Hb : whitespace_only (str "apple") = false) by reflexivity.
  assert (Hl : rows_loaded (usedRange (sheet stale_state))).
  { unfold rows_loaded. simpl. lia. }
  split; [exact Hb|]. split; [exact Hl|]. split; [reflexivity|].
  destruct (@C3_clear_then_highlight example_host (str "apple") stale_state
              Hb Hl)
    as (hits & st' & Hscan & Hhm & _ & _ & _ & Hin & _).
  rewrite stale_scan in Hscan. injection Hscan as <-.
  exists st'. split; [exact Hhm|]. split.
  - apply (Hin (0, 1)).
    + unfold in_range. simpl. lia.
    + intros H01. apply list_elem_of_singleton in H01. discriminate.
  - apply (Hin (0, 0)).
    + unfold in_range. simpl. lia.
    + by apply list_elem_of_singleton.
Defined.

(** What happens on [stale_state], where (0,1) is still filled from the
    search for "pear", when the search string is one space. *)
Lemma space_on_stale_state :
  @highlightMatches example_host (str "pear") pear_state = Some stale_state /\
  str " " <> [] /\
  @highlightMatches example_host (str " ") stale_state = Some stale_state /\
  fill (sheet stale_state) !! (0, 1) = Some HIGHLIGHT_COLOR /\
  fill (sheet stale_state) !! (0, 0) = None /\
  @scan example_host (usedRange (sheet stale_state))
    (@toLowerCase example_host (trim (str " "))) = Some [(0, 0); (0, 1)].
Proof.
  split; [vm_compute; reflexivity|].
  split; [discriminate|].
  split; [vm_compute; reflexivity|].
  split; [vm_compute; reflexivity|].
  split; vm_compute; reflexivity.
Qed.

(** C3 as stated fails: the search string " " is not empty, yet the call
    returns without clearing or filling anything.  On [stale_state] the
    cell (0,1), filled by the earlier search for "pear", stays filled, and
    the cell (0,0), which contains the trimmed string, is not filled. *)
Lemma C3_counterexample :
  ~ (forall (needle : jsstring) (st : State),
       needle <> [] ->
       rows_loaded (usedRange (sheet st)) ->
       exists (hits : list (nat * nat)) (st' : State),
         @scan example_host (usedRange (sheet st))
           (@toLowerCase example_host (trim needle)) = Some hits /\
         @highlightMatches example_host needle st = Some st' /\
         forall rc, in_range (usedRange (sheet st)) rc ->
           (fill (sheet st') !! rc = Some HIGHLIGHT_COLOR <-> rc ∈ hits)).
Proof.
  intros Hclaim.
  destruct space_on_stale_state as (_ & Hne & Hhm & _ & H00 & Hscan).
  destruct (Hclaim (str " ") stale_state Hne) as (hits & st' & Hs & Hh & Hfill).
  { unfold rows_loaded. simpl. lia. }
  rewrite Hscan in Hs. injection Hs as <-.
  rewrite Hhm in Hh. injection Hh as <-.
  assert (Hin : in_range (usedRange (sheet stale_state)) (0, 0)).
  { unfold in_range. simpl. lia. }
  apply Hfill in Hin. rewrite H00 in Hin.
  assert (Hc : None = Some HIGHLIGHT_COLOR) by (apply Hin; by left).
  discriminate.
Qed.

Lemma C4_blank_is_noop_witness :
  whitespace_only [32%N; 9%N; 160%N] = true /\
  @highlightMatches example_host [32%N; 9%N; 160%N] stale_state
  = Some stale_state.
Proof.
  split; [reflexivity|].
  apply (@C4_blank_is_noop example_host [32%N; 9%N; 160%N] stale_state).
  reflexivity.
Defined.

Lemma hello_is_partial :
  @partial_frame example_host (frame (str "partial") (str "hello"))
    (str "hello").
Proof.
  eexists. split; [vm_compute; reflexivity|].
  split; vm_compute; reflexivity.
Defined.

Lemma hello_bang_is_partial :
  @partial_frame example_host (frame (str "partial") (str "hello!"))
    (str "hello!").
Proof.
  eexists. split; [vm_compute; reflexivity|].
  split; vm_compute; reflexivity.
Defined.

Lemma C5_only_partial_frames_witness :
  (bufferText
     (@ws_onmessage example_host (frame (str "partial") (str "hello"))
        fruit_state).2 = str "hello" /\
   live (document
     (@ws_onmessage example_host (frame (str "partial") (str "hello"))
        fruit_state).2) = str "hello") /\
  @JSON_parse example_host (str "{oops") = None /\
  @ws_onmessage example_host (str "{oops") fruit_state = ([], fruit_state) /\
  @ws_onmessage example_host (frame (str "status") (str "ok")) fruit_state
  = ([], fruit_state).
Proof.
  split.
  - apply (@C5_only_partial_frames example_host
             (frame (str "partial") (str "hello")) fruit_state).
    exact hello_is_partial.
  - split; [reflexivity|]. split.
    + apply (@C5_only_partial_frames example_host (str "{oops") fruit_state).
      reflexivity.
    + eapply (@C5_only_partial_frames example_host
                (frame (str "status") (str "ok")) fruit_state).
      * vm_compute. reflexivity.
      * vm_compute. reflexivity.
Defined.

Lemma C6_threshold_gate_witness :
  @partial_frame example_host (frame (str "partial") (str "hello"))
    (str "hello") /\
  autoSearchThreshold fruit_state = Finite 6 /\
  (@ws_onmessage example_host (frame (str "partial") (str "hello"))
     fruit_state).1 = [] /\
  (@ws_onmessage example_host (frame (str "partial") (str "hello!"))
     fruit_state).1 = [str "hello!"].
Proof.
  split; [exact hello_is_partial|]. split; [reflexivity|]. split.
  - apply (@C6_threshold_gate example_host _ (str "hello") fruit_state
             hello_is_partial); reflexivity.
  - apply (@C6_threshold_gate example_host _ (str "hello!") fruit_state
             hello_bang_is_partial); reflexivity.
Defined.

Lemma C7_status_report_witness :
  lowers_ascii example_host /\
  usedRange (sheet fruit_state) = fruit_range /\
  exists st' : State,
    @highlightMatches example_host (str "an") fruit_state = Some st' /\
    status (document st') =
      str "Found 1 match(es) for " ++ [8220%N] ++ str "an" ++ [8221%N] ++
      str "." /\
    fill (sheet st') !! (0, 1) = Some HIGHLIGHT_COLOR /\
    fill (sheet st') !! (0, 0) = None /\
    selection (sheet st') = Some (0, 1).
Proof.
  split; [exact example_host_lowers_ascii|]. split; [reflexivity|].
  destruct (@C7_status_report example_host) as [_ Hscenario].
  destruct (Hscenario fruit_state example_host_lowers_ascii eq_refl)
    as [(st' & Hhm & Hstatus & Hfill & Hsel) _].
  exists st'. split; [exact Hhm|]. split; [exact Hstatus|].
  split; [|split; [|exact Hsel]].
  - apply (Hfill (0, 1)). unfold in_range. simpl. lia.
  - apply (Hfill (0, 0)). unfold in_range. simpl. lia.
Defined.

Lemma C8_idempotent_witness :
  rows_loaded (usedRange (sheet fruit_state)) /\
  exists st1 : State,
    @highlightMatches example_host (str "an") fruit_state = Some st1 /\
    @highlightMatches example_host (str "an") st1 = Some st1.
Proof.
  assert (Hl : rows_loaded (usedRange (sheet fruit_state))).
  { unfold rows_loaded. simpl. lia. }
  split; [exact Hl|].
  exact (@C8_idempotent example_host (str "an") fruit_state Hl).
Defined.

Lemma C9_disconnect_witness :
  ws (connect fruit_state) = Some 0 /\
  sockets (connect fruit_state) !! 0 = Some CONNECTING /\
  ws (disconnect (connect fruit_state)) = None /\
  sockets (disconnect (connect fruit_state)) !! 0 = Some CLOSING /\
  ws fruit_state = None /\
  disconnect fruit_state = fruit_state.
Proof.
  split; [reflexivity|]. split; [reflexivity|].
  destruct (C9_disconnect (connect fruit_state)) as (Hws & _ & _ & Hsome).
  split; [exact Hws|].
  destruct (Hsome 0 eq_refl) as (Hclose & _).
  split; [rewrite Hclose; reflexivity|].
  split; [reflexivity|].
  apply (C9_disconnect fruit_state). reflexivity.
Defined.

Lemma C10_threshold_nonnegative_witness :
  @StringToNumber example_host (str "12") = Finite 12 /\
  @StringToNumber example_host (str "0") <> NaN /\
  number_ge
    (autoSearchThreshold
       (@threshold_updates example_host [str "12"; str "0"] fruit_state))
    (Finite 0) = true /\
  number_lt
    (autoSearchThreshold
       (@threshold_updates example_host [str "12"; str "x"; str "3"]
          fruit_state))
    (Finite 0) = false.
Proof.
  split; [reflexivity|]. split; [discriminate|].
  destruct (@C10_threshold_nonnegative example_host)
    as (_ & _ & Hlt & Hge & _).
  split.
  - apply Hge; [reflexivity|]. repeat constructor; discriminate.
  - apply Hlt. reflexivity.
Defined.

(* ===================================================================== *)
(** ** When the scan throws                                               *)
(* ===================================================================== *)

Section ScanBounds.
Context {host : Host}.

Lemma rows_from_no_columns r0 n : rows_from r0 n 0 = [].
Proof. revert r0. induction n as [|n IH]; intros r0; [done|]. apply IH. Qed.

Lemma for_r_no_columns vals query :
  forall n r hits, for_r vals query 0 r n hits = Some hits.
Proof. induction n as [|n IH]; intros r hits; [done|]. apply IH. Qed.

Lemma for_c_no_row vals query r c n hits :
  vals !! r = None -> 0 < n -> for_c vals query r c n hits = None.
Proof. intros Hrow Hn. destruct n; [lia|]. simpl. by rewrite Hrow. Qed.

(** The outer loop reaches a row that [values] does not have. *)
Lemma for_r_short vals query cc :
  0 < cc ->
  forall n r hits,
    r <= length vals -> length vals < r + n ->
    for_r vals query cc r n hits = None.
Proof.
  intros Hcc. induction n as [|n IH]; intros r hits Hr Hn; [lia|].
  simpl. destruct (vals !! r) as [row|] eqn:Hrow.
  - rewrite (for_c_spec _ _ _ _ Hrow).
    apply lookup_lt_Some in Hrow. apply IH; lia.
  - by rewrite for_c_no_row.
Qed.

Lemma scan_None used query :
  scan used query = None <->
  length (values used) < rowCount used /\ 0 < columnCount used.
Proof.
  unfold scan. split.
  - intros Hs.
    destruct (decide (rowCount used <= length (values used))) as [Hl|Hl].
    { rewrite for_r_spec in Hs by exact Hl. discriminate. }
    destruct (columnCount used) as [|cc] eqn:Hcc.
    { rewrite for_r_no_columns in Hs. discriminate. }
    lia.
  - intros [Hl Hcc]. apply for_r_short; lia.
Qed.

(** Whenever the loops return, they return the row-major matches. *)
Lemma scan_Some used query hits :
  scan used query = Some hits ->
  hits = scan_in_order used query (row_major used).
Proof.
  intros Hs.
  destruct (decide (rowCount used <= length (values used))) as [Hl|Hl].
  - rewrite scan_spec in Hs by exact Hl. by injection Hs.
  - destruct (columnCount used) as [|cc] eqn:Hcc.
    + unfold scan in Hs. rewrite Hcc, for_r_no_columns in Hs.
      injection Hs as <-. unfold scan_in_order, row_major.
      by rewrite Hcc, rows_from_no_columns.
    + assert (Hn : scan used query = None) by (apply scan_None; lia).
      congruence.
Qed.

Lemma hits_in_range used query hits rc :
  scan used query = Some hits -> rc ∈ hits -> in_range used rc.
Proof.
  intros Hs Hin. apply scan_Some in Hs. subst hits.
  by apply elem_of_hits in Hin as [Hin _].
Qed.


End ScanBounds.

(* ===================================================================== *)
(** ** Clearing and highlighting                                          *)
(* ===================================================================== *)

Lemma fill_clear_idem (used : UsedRange) (m : gmap (nat * nat) jsstring) :
  fill_clear used (fill_clear used m) = fill_clear used m.
Proof.
  apply map_eq. intros rc. rewrite !lookup_fill_clear. by case_decide.
Qed.

Lemma fill_clear_foldl (used : UsedRange) (color : jsstring)
    (hits : list (nat * nat)) (m : gmap (nat * nat) jsstring) :
  (forall rc, rc ∈ hits -> in_range used rc) ->
  fill_clear used (foldl (set_fill_color color) (fill_clear used m) hits)
  = fill_clear used m.
Proof.
  intros Hin. apply map_eq. intros rc.
  rewrite !lookup_fill_clear, lookup_foldl_fill, lookup_fill_clear.
  destruct (decide (in_range used rc)) as [Hr|Hr]; [done|].
  rewrite decide_False; [done|]. intros Hh. by apply Hr, Hin.
Qed.

(** X2: [clearHighlights] leaves no fill on any cell of the used range and
    changes nothing else: fills outside the range, the selection, the cell
    values, the document and the module variables stay, and a second call
    in a row changes nothing. *)
Theorem clearHighlights_clears (st : State) :
  (forall rc, in_range (usedRange (sheet st)) rc ->
     fill (sheet (clearHighlights st)) !! rc = None) /\
  (forall rc, ~ in_range (usedRange (sheet st)) rc ->
     fill (sheet (clearHighlights st)) !! rc = fill (sheet st) !! rc) /\
  usedRange (sheet (clearHighlights st)) = usedRange (sheet st) /\
  selection (sheet (clearHighlights st)) = selection (sheet st) /\
  document (clearHighlights st) = document st /\
  bufferText (clearHighlights st) = bufferText st /\
  autoSearchThreshold (clearHighlights st) = autoSearchThreshold st /\
  ws (clearHighlights st) = ws st /\
  sockets (clearHighlights st) = sockets st /\
  clearHighlights (clearHighlights st) = clearHighlights st.
Proof.
  split; [|split].
  - intros rc Hin. unfold clearHighlights. simpl.
    by rewrite lookup_fill_clear, decide_True.
  - intros rc Hout. unfold clearHighlights. simpl.
    by rewrite lookup_fill_clear, decide_False.
  - repeat split. unfold clearHighlights, set_sheet. simpl.
    by rewrite fill_clear_idem.
Qed.

Section ClearAndHighlight.
Context {host : Host}.

(** X3: "Clear highlights" after a search removes every highlight the
    search made: the fills are the ones a clear without the search would
    have left, none of them in the used range. *)
Theorem clearHighlights_after_highlight (needle : jsstring) (st st' : State) :
  highlightMatches needle st = Some st' ->
  fill (sheet (clearHighlights st')) = fill (sheet (clearHighlights st)) /\
  forall rc, in_range (usedRange (sheet st)) rc ->
    fill (sheet (clearHighlights st')) !! rc = None.
Proof.
  intros Hh.
  assert (Hfill : fill (sheet (clearHighlights st'))
                  = fill (sheet (clearHighlights st))).
  { unfold highlightMatches in Hh. destruct (is_blank needle).
    { by injection Hh as <-. }
    destruct (scan _ _) as [hits|] eqn:Hs; [|discriminate].
    assert (Hst' : st' = highlighted needle hits st).
    { destruct hits; by injection Hh as <-. }
    subst st'. unfold clearHighlights. simpl.
    apply fill_clear_foldl. intros rc. by apply hits_in_range with (1 := Hs). }
  split; [exact Hfill|].
  intros rc Hin. rewrite Hfill. by apply clearHighlights_clears.
Qed.

(** X4: a search does not depend on what was highlighted before: running
    it after "Clear highlights" gives the state it gives without the
    clear. *)
Theorem highlightMatches_after_clear (needle : jsstring) (st : State) :
  whitespace_only needle = false ->
  highlightMatches needle (clearHighlights st) = highlightMatches needle st.
Proof.
  intros Hb. unfold highlightMatches.
  rewrite is_blank_whitespace_only, Hb.
  change (usedRange (sheet (clearHighlights st))) with (usedRange (sheet st)).
  destruct (scan _ _) as [hits|]; [|done].
  change (fill (sheet (clearHighlights st)))
    with (fill_clear (usedRange (sheet st)) (fill (sheet st))).
  rewrite fill_clear_idem. by destruct hits.
Qed.

(** X5: two search strings with the same lower-cased trimmed form leave
    the same sheet (fills and selection): padding and letter case of the
    search string only show in the status text. *)
Theorem same_query_same_sheet (needle1 needle2 : jsstring) (st : State) :
  whitespace_only needle1 = false ->
  whitespace_only needle2 = false ->
  toLowerCase (trim needle1) = toLowerCase (trim needle2) ->
  sheet <$> highlightMatches needle1 st = sheet <$> highlightMatches needle2 st.
Proof.
  intros Hb1 Hb2 Hq. unfold highlightMatches.
  rewrite !is_blank_whitespace_only, Hb1, Hb2, Hq.
  destruct (scan _ _) as [hits|]; [|done]. by destruct hits.
Qed.

End ClearAndHighlight.

(* ===================================================================== *)
(** ** What the status counts and what is selected                        *)
(* ===================================================================== *)

Lemma filter_ext_in {A} (P Q : A -> Prop)
    `{!forall x, Decision (P x), !forall x, Decision (Q x)} (l : list A) :
  (forall x, x ∈ l -> (P x <-> Q x)) -> filter P l = filter Q l.
Proof.
  induction l as [|a l IH]; intros Hpq; [done|].
  assert (Ha : P a <-> Q a) by (apply Hpq; by left).
  assert (Hl : filter P l = filter Q l).
  { apply IH. intros x Hx. apply Hpq. by right. }
  rewrite !filter_cons, Hl.
  destruct (decide (P a)), (decide (Q a)); tauto.
Qed.

Lemma sorted_NoDup {A} (R : relation A) (l : list A) :
  (forall x, ~ R x x) -> StronglySorted R l -> NoDup l.
Proof.
  intros Hirr. induction 1 as [|x l Hs IH Hx]; constructor; [|exact IH].
  intros Hin. rewrite Forall_forall in Hx. by apply (Hirr x), Hx.
Qed.

Lemma length_rows_from r0 n cc : length (rows_from r0 n cc) = n * cc.
Proof.
  revert r0. induction n as [|n IH]; intros r0; [done|].
  rewrite rows_from_S, length_app, length_fmap, length_seq, IH. lia.
Qed.

Section Count.
Context {host : Host}.

(** X6: after a search that returned, the cells of the used range that
    carry the highlight colour, listed in row-major order, are the array
    [hits] itself.  No cell is listed twice and there are at most
    [rowCount * columnCount] of them, so the number in the status text is
    the number of highlighted cells of the range. *)
Theorem status_count_is_highlighted_count (needle : jsstring)
    (st st' : State) :
  whitespace_only needle = false ->
  highlightMatches needle st = Some st' ->
  exists hits : list (nat * nat),
    scan (usedRange (sheet st)) (toLowerCase (trim needle)) = Some hits /\
    filter (fun rc => fill (sheet st') !! rc = Some HIGHLIGHT_COLOR)
      (row_major (usedRange (sheet st))) = hits /\
    NoDup hits /\
    length hits <= rowCount (usedRange (sheet st))
                   * columnCount (usedRange (sheet st)) /\
    (hits <> [] ->
       status (document st') = found_message (length hits) needle).
Proof.
  intros Hb Hh. unfold highlightMatches in Hh.
  rewrite is_blank_whitespace_only, Hb in Hh.
  destruct (scan _ _) as [hits|] eqn:Hs; [|discriminate].
  assert (Hst' : st' = highlighted needle hits st).
  { destruct hits; by injection Hh as <-. }
  subst st'. clear Hh. exists hits. split; [reflexivity|].
  pose proof (scan_Some _ _ _ Hs) as Hhits.
  split; [|split; [|split]].
  - transitivity (scan_in_order (usedRange (sheet st))
                    (toLowerCase (trim needle))
                    (row_major (usedRange (sheet st)))); [|by symmetry].
    unfold scan_in_order. apply filter_ext_in.
    intros rc Hrc. rewrite fill_highlighted, lookup_foldl_fill.
    apply elem_of_row_major in Hrc.
    destruct (decide (rc ∈ hits)) as [Hin|Hout].
    + rewrite Hhits in Hin. apply list_elem_of_filter in Hin as [Hhit _].
      tauto.
    + rewrite lookup_fill_clear, decide_True by done.
      split; [discriminate|]. intros Hhit. exfalso. apply Hout.
      rewrite Hhits. apply list_elem_of_filter. split; [exact Hhit|].
      by apply elem_of_row_major.
  - rewrite Hhits. apply sorted_NoDup with (R := row_major_lt).
    + apply row_major_lt_irrefl.
    + apply hits_sorted.
  - rewrite Hhits. unfold scan_in_order.
    etrans; [apply length_filter|]. unfold row_major.
    by rewrite length_rows_from.
  - intros Hne. by destruct hits.
Qed.

(** X7: after a search that returned, either nothing matched and the
    selection is the one before the call, or the selected cell is a cell
    of the used range that matches and carries the highlight colour. *)
Theorem selected_is_highlighted (needle : jsstring) (st st' : State) :
  whitespace_only needle = false ->
  highlightMatches needle st = Some st' ->
  (scan (usedRange (sheet st)) (toLowerCase (trim needle)) = Some [] /\
   selection (sheet st') = selection (sheet st)) \/
  (exists rc : nat * nat,
     selection (sheet st') = Some rc /\
     in_range (usedRange (sheet st)) rc /\
     cell_matches (usedRange (sheet st)) (toLowerCase (trim needle)) rc /\
     fill (sheet st') !! rc = Some HIGHLIGHT_COLOR).
Proof.
  intros Hb Hh. unfold highlightMatches in Hh.
  rewrite is_blank_whitespace_only, Hb in Hh.
  destruct (scan _ _) as [hits|] eqn:Hs; [|discriminate].
  destruct hits as [|first rest].
  - left. injection Hh as <-. by split.
  - right. injection Hh as <-. exists first.
    assert (Hin : first ∈ first :: rest) by (by left).
    split; [reflexivity|].
    pose proof (scan_Some _ _ _ Hs) as Hhits.
    rewrite Hhits in Hin. apply elem_of_hits in Hin as [Hr Hm].
    split; [exact Hr|]. split; [exact Hm|].
    change (fill (sheet (highlighted needle (first :: rest) st)) !! first
            = Some HIGHLIGHT_COLOR).
    rewrite fill_highlighted, lookup_foldl_fill, decide_True; [done|].
    by left.
Qed.

End Count.

(* ===================================================================== *)
(** ** Connecting                                                         *)
(* ===================================================================== *)

Lemma connect_open st h :
  ws st = Some h -> sockets st !! h = Some OPEN -> connect st = st.
Proof. intros Hws Hh. unfold connect. by rewrite Hws, Hh. Qed.

Lemma connect_new st :
  (forall h, ws st = Some h -> sockets st !! h <> Some OPEN) ->
  connect st =
  set_ws (Some (fresh (dom (sockets st))))
    (<[fresh (dom (sockets st)) := CONNECTING]> (sockets st)) st.
Proof.
  intros Hno. unfold connect.
  destruct (ws st) as [h|] eqn:Hws; [|done].
  specialize (Hno h eq_refl).
  destruct (sockets st !! h) as [[]|]; done.
Qed.

Lemma fresh_socket (m : gmap nat ReadyState) : m !! fresh (dom m) = None.
Proof. apply not_elem_of_dom, is_fresh. Qed.

(** X8: [connect] does nothing when [ws] is a socket that is OPEN.  In
    every other case, [ws] being [null] or a socket that is connecting,
    closing or closed, it creates a socket under a handle not used before,
    CONNECTING, and points [ws] at it; the sockets there were stay as they
    are (the old one is not closed), and so do the document, the sheet, the
    buffer and the threshold. *)
Theorem connect_cases (st : State) :
  (forall h, ws st = Some h -> sockets st !! h = Some OPEN ->
     connect st = st) /\
  ((forall h, ws st = Some h -> sockets st !! h <> Some OPEN) ->
     exists h' : nat,
       ws (connect st) = Some h' /\
       sockets st !! h' = None /\
       sockets (connect st) !! h' = Some CONNECTING /\
       (forall h, h <> h' -> sockets (connect st) !! h = sockets st !! h) /\
       document (connect st) = document st /\
       sheet (connect st) = sheet st /\
       bufferText (connect st) = bufferText st /\
       autoSearchThreshold (connect st) = autoSearchThreshold st).
Proof.
  split; [apply connect_open|].
  intros Hno. rewrite (connect_new st Hno).
  exists (fresh (dom (sockets st))). simpl.
  split; [done|]. split; [apply fresh_socket|].
  split; [by rewrite lookup_insert_eq|].
  split; [|done]. intros h Hne. by rewrite lookup_insert_ne.
Qed.

(** X9: two calls of [connect] while no socket is OPEN create two
    sockets, and [disconnect] then closes the second only: the first one
    stays CONNECTING with no variable left that refers to it. *)
Theorem connect_twice_leaks (st : State) :
  (forall h, ws st = Some h -> sockets st !! h <> Some OPEN) ->
  exists h1 h2 : nat,
    h1 <> h2 /\
    sockets st !! h1 = None /\ sockets st !! h2 = None /\
    ws (connect st) = Some h1 /\
    ws (connect (connect st)) = Some h2 /\
    ws (disconnect (connect (connect st))) = None /\
    sockets (disconnect (connect (connect st))) !! h1 = Some CONNECTING /\
    sockets (disconnect (connect (connect st))) !! h2 = Some CLOSING.
Proof.
  intros Hno.
  set (h1 := fresh (dom (sockets st))).
  set (st1 := connect st).
  assert (E1 : st1 = set_ws (Some h1) (<[h1 := CONNECTING]> (sockets st)) st)
    by (apply connect_new, Hno).
  assert (Hno1 : forall h, ws st1 = Some h -> sockets st1 !! h <> Some OPEN).
  { intros h. rewrite E1. simpl. intros [= <-].
    by rewrite lookup_insert_eq. }
  set (h2 := fresh (dom (sockets st1))).
  assert (E2 : connect st1
               = set_ws (Some h2) (<[h2 := CONNECTING]> (sockets st1)) st1)
    by (apply connect_new, Hno1).
  assert (H2 : sockets st1 !! h2 = None) by apply fresh_socket.
  assert (Hne : h1 <> h2).
  { intros E. rewrite <- E, E1 in H2. simpl in H2.
    by rewrite lookup_insert_eq in H2. }
  exists h1, h2.
  split; [exact Hne|]. split; [apply fresh_socket|]. split.
  { rewrite E1 in H2. simpl in H2. by rewrite lookup_insert_ne in H2. }
  split; [by rewrite E1|]. split; [by rewrite E2|].
  rewrite E2. unfold disconnect. simpl.
  split; [done|]. split.
  - rewrite lookup_alter_ne, lookup_insert_ne by done.
    rewrite E1. simpl. by rewrite lookup_insert_eq.
  - by rewrite lookup_alter_eq, lookup_insert_eq.
Qed.

(* ===================================================================== *)
(** ** Messages, the threshold and the search button                      *)
(* ===================================================================== *)

Lemma of_length_nonneg (n : nat) : number_ge (of_length n) (Finite 0) = true.
Proof.
  unfold of_length. simpl. apply Qle_bool_iff.
  unfold Qle, inject_Z. simpl. lia.
Qed.

Section Messages.
Context {host : Host}.

Lemma partial_frame_dec data :
  (exists text, partial_frame data text) \/
  ~ (exists text, partial_frame data text).
Proof.
  unfold partial_frame.
  destruct (JSON_parse data) as [msg|] eqn:Hp;
    [|right; intros (? & ? & ? & _); discriminate].
  destruct msg as [| b | x | s | l | members];
    try (right; intros (? & ? & ? & _); discriminate).
  destruct (members !! str "type") as [ty|] eqn:Hty; cycle 1.
  { right. intros (? & ? & [= <-] & ? & _). congruence. }
  destruct ty as [| b | x | s | l | m];
    try (right; intros (? & ? & [= <-] & ? & _); congruence).
  destruct (decide (s = str "partial")) as [->|Hs]; cycle 1.
  { right. intros (? & ? & [= <-] & ? & _). congruence. }
  destruct (members !! str "text") as [tx|] eqn:Htx; cycle 1.
  { right. intros (? & ? & [= <-] & _ & ?). congruence. }
  destruct tx as [| b | x | text | l | m];
    try (right; intros (? & ? & [= <-] & _ & ?); congruence).
  left. exists text, members. done.
Qed.

(** What a message can do: nothing, or replace buffer and live text,
    followed or not by a search that returned. *)
Lemma ws_onmessage_cases data st :
  ws_onmessage data st = ([], st) \/
  exists text : jsstring,
    partial_frame data text /\
    let st1 := setLive text (set_bufferText text st) in
    (at_threshold text st = false /\ ws_onmessage data st = ([], st1)) \/
    (at_threshold text st = true /\
     ws_onmessage data st = ([text], default st1 (highlightMatches text st1))).
Proof.
  destruct (partial_frame_dec data) as [[text Hp] | Hn].
  - right. exists text. split; [exact Hp|].
    rewrite (ws_onmessage_partial _ _ _ Hp). simpl.
    destruct (at_threshold text st); [right | left]; done.
  - left. by apply ws_onmessage_other.
Qed.

(** X10: the two edge values of the threshold.  When the text typed into
    [#threshold] converts to NaN, no frame triggers a search afterwards;
    when it converts to 0 or to a negative number, the threshold is 0 and
    every partial frame triggers one, the empty transcript included. *)
Theorem threshold_edge_values (value : jsstring) (st : State) :
  (StringToNumber value = NaN ->
     forall data, (ws_onmessage data (threshold_onchange value st)).1 = []) /\
  (number_ge (Finite 0) (StringToNumber value) = true ->
     autoSearchThreshold (threshold_onchange value st) = Finite 0 /\
     forall data text,
       partial_frame data text ->
       (ws_onmessage data (threshold_onchange value st)).1 = [text]).
Proof.
  split.
  - intros Hnan data.
    destruct (ws_onmessage_cases data (threshold_onchange value st))
      as [-> | (text & _ & [[_ ->] | [Hat _]])]; [done | done |].
    unfold at_threshold, threshold_onchange in Hat. simpl in Hat.
    rewrite Hnan in Hat. discriminate.
  - intros Hle.
    assert (Ht : autoSearchThreshold (threshold_onchange value st) = Finite 0).
    { simpl. destruct (StringToNumber value); try done.
      simpl in *. by rewrite Hle. }
    split; [exact Ht|]. intros data text Hp.
    rewrite (ws_onmessage_partial _ _ _ Hp).
    unfold at_threshold. rewrite Ht, of_length_nonneg. reflexivity.
Qed.

(** X11: a partial frame whose text is blank replaces the buffer and the
    live text and nothing else, whatever the threshold: when the search is
    triggered it returns at once, so fills, selection and status stay. *)
Theorem blank_partial_frame (data text : jsstring) (st : State) :
  partial_frame data text ->
  whitespace_only text = true ->
  (ws_onmessage data st).2 = setLive text (set_bufferText text st).
Proof.
  intros Hp Hb. rewrite (ws_onmessage_partial _ _ _ Hp). simpl.
  destruct (at_threshold text st); [|done]. simpl.
  by rewrite highlightMatches_blank.
Qed.

Lemma highlightMatches_set_threshold needle t st :
  highlightMatches needle (set_threshold t st)
  = set_threshold t <$> highlightMatches needle st.
Proof.
  unfold highlightMatches. destruct (is_blank needle); [done|].
  change (usedRange (sheet (set_threshold t st)))
    with (usedRange (sheet st)).
  destruct (scan _ _) as [hits|]; [|done]. by destruct hits.
Qed.

(** X12: the "Search now" button does what the automatic search does.  On
    a partial frame at or above the threshold the handler leaves the state
    a click on the button would leave after the buffer is replaced; below
    the threshold, a click after the frame leaves the sheet and the
    document as the frame alone leaves them under threshold 0. *)
Theorem searchNow_is_auto_search (data text : jsstring) (st : State) :
  partial_frame data text ->
  (at_threshold text st = true ->
     (ws_onmessage data st).2
     = searchNow_onclick (setLive text (set_bufferText text st))) /\
  (at_threshold text st = false ->
     sheet (searchNow_onclick (ws_onmessage data st).2)
     = sheet (ws_onmessage data (set_threshold (Finite 0) st)).2 /\
     document (searchNow_onclick (ws_onmessage data st).2)
     = document (ws_onmessage data (set_threshold (Finite 0) st)).2).
Proof.
  intros Hp. rewrite !(ws_onmessage_partial _ _ _ Hp). split.
  - intros ->. reflexivity.
  - intros ->. unfold at_threshold. simpl autoSearchThreshold.
    rewrite of_length_nonneg. unfold searchNow_onclick. simpl.
    change (setLive text (set_bufferText text (set_threshold (Finite 0) st)))
      with (set_threshold (Finite 0) (setLive text (set_bufferText text st))).
    rewrite highlightMatches_set_threshold.
    by destruct (highlightMatches _ _).
Qed.

End Messages.

(* ===================================================================== *)
(** ** Invariants of the event loop                                       *)
(* ===================================================================== *)

Section Loop.
Context {host : Host}.

Lemma highlightMatches_effects needle st st' :
  highlightMatches needle st = Some st' ->
  st' = st \/
  exists hits : list (nat * nat),
    scan (usedRange (sheet st)) (toLowerCase (trim needle)) = Some hits /\
    st' = highlighted needle hits st.
Proof.
  unfold highlightMatches. destruct (is_blank needle).
  - intros [= <-]. by left.
  - destruct (scan _ _) as [hits|]; [|discriminate].
    intros Hh. right. exists hits. split; [done|].
    destruct hits; by injection Hh as <-.
Qed.

Lemma writes_highlightMatches needle st st' :
  highlightMatches needle st = Some st' -> writes st st'.
Proof.
  intros [-> | (hits & Hs & ->)]%highlightMatches_effects.
  - constructor.
  - by constructor.
Qed.

Lemma writes_searchNow st : writes st (searchNow_onclick st).
Proof.
  unfold searchNow_onclick.
  destruct (highlightMatches _ _) as [st'|] eqn:Hh; simpl.
  - by apply writes_highlightMatches in Hh.
  - constructor.
Qed.

Lemma writes_onmessage data st : writes st (ws_onmessage data st).2.
Proof.
  destruct (ws_onmessage_cases data st)
    as [-> | (text & _ & [[_ ->] | [_ ->]])]; simpl.
  - constructor.
  - constructor.
  - eapply writes_then; [apply writes_buffer|].
    destruct (highlightMatches _ _) as [st'|] eqn:Hh; simpl.
    + by apply writes_highlightMatches in Hh.
    + constructor.
Qed.

Lemma writes_handle e st : writes st (handle e st).
Proof.
  destruct e; simpl.
  - unfold connect. destruct (match ws st with Some _ => _ | None => _ end);
      constructor.
  - unfold disconnect. destruct (ws st); constructor.
  - apply writes_searchNow.
  - constructor.
  - constructor.
  - unfold ws_onopen, set_readyState.
    eapply writes_then; [apply writes_sockets|].
    eapply writes_then; [apply writes_status|]. by constructor.
  - apply writes_onmessage.
  - unfold ws_onclose, set_readyState.
    eapply writes_then; [apply writes_sockets|].
    eapply writes_then; [apply writes_status|]. by constructor.
  - constructor.
Qed.

Lemma run_cons e events st : run (e :: events) st = run events (handle e st).
Proof. reflexivity. Qed.

Lemma run_app events1 events2 st :
  run (events1 ++ events2) st = run events2 (run events1 st).
Proof. unfold run. apply foldl_app. Qed.

(** A property every write keeps is kept by every run. *)
Lemma run_invariant (P : State -> Prop) :
  (forall st st', writes st st' -> P st -> P st') ->
  forall events st, P st -> P (run events st).
Proof.
  intros Hkeep events. induction events as [|e events IH]; intros st HP.
  - exact HP.
  - rewrite run_cons. apply IH. apply (Hkeep st); [apply writes_handle|done].
Qed.



Lemma writes_threshold_sign st st' :
  writes st st' ->
  number_lt (autoSearchThreshold st) (Finite 0) = false ->
  number_lt (autoSearchThreshold st') (Finite 0) = false.
Proof.
  induction 1; try done; [|auto].
  intros _. apply Math_max_zero_not_lt.
Qed.

Lemma handle_threshold e st :
  ~ is_change e -> autoSearchThreshold (handle e st) = autoSearchThreshold st.
Proof.
  intros Hn. destruct e; simpl; try done.
  - unfold connect. by destruct (match ws st with Some _ => _ | None => _ end).
  - unfold disconnect. by destruct (ws st).
  - unfold searchNow_onclick.
    destruct (highlightMatches _ _) as [st'|] eqn:Hh; [|done]. simpl.
    by apply highlightMatches_frame in Hh as (_ & _ & -> & _).
  - destruct (ws_onmessage_cases data st)
      as [-> | (text & _ & [[_ ->] | [_ ->]])]; try done. simpl.
    destruct (highlightMatches _ _) as [st'|] eqn:Hh; [|done]. simpl.
    by apply highlightMatches_frame in Hh as (_ & _ & -> & _).
Qed.

(** X14: the threshold is written by the listener of [#threshold] only,
    and never with a negative number: it is unchanged by a sequence of
    events without a change event, and not below 0 after any sequence of
    events from a state where it is not below 0. *)
Theorem run_threshold (events : list Event) (st : State) :
  (Forall (fun e => ~ is_change e) events ->
     autoSearchThreshold (run events st) = autoSearchThreshold st) /\
  (number_lt (autoSearchThreshold st) (Finite 0) = false ->
     number_lt (autoSearchThreshold (run events st)) (Finite 0) = false).
Proof.
  split.
  - revert st. induction events as [|e events IH]; intros st Hev; [done|].
    apply Forall_cons in Hev as [He Hev].
    rewrite run_cons, IH by done. by apply handle_threshold.
  - apply (run_invariant
             (fun s => number_lt (autoSearchThreshold s) (Finite 0) = false)).
    apply writes_threshold_sign.
Qed.

End Loop.

Section LoopState.
Context {host : Host}.

Lemma handle_buffer_live e st :
  ~ is_partial_message e ->
  bufferText (handle e st) = bufferText st /\
  live (document (handle e st)) = live (document st).
Proof.
  intros Hn. destruct e; simpl; try done.
  - unfold connect. by destruct (match ws st with Some _ => _ | None => _ end).
  - unfold disconnect. by destruct (ws st).
  - unfold searchNow_onclick.
    destruct (highlightMatches _ _) as [st'|] eqn:Hh; [|done]. simpl.
    by apply highlightMatches_frame in Hh as (_ & -> & _ & -> & _).
  - rewrite ws_onmessage_other; [done|].
    intros [text Hp]. apply Hn. by exists h, data, text.
Qed.

Lemma handle_partial h data text st :
  partial_frame data text ->
  bufferText (handle (SocketMessage h data) st) = text /\
  live (document (handle (SocketMessage h data) st)) = text.
Proof.
  intros Hp. simpl. rewrite (ws_onmessage_partial _ _ _ Hp). simpl.
  destruct (at_threshold text st); simpl; [|done].
  destruct (highlightMatches _ _) as [st'|] eqn:Hh; simpl; [|done].
  by apply highlightMatches_frame in Hh as (_ & -> & _ & -> & _).
Qed.

Lemma run_buffer_live events st :
  Forall (fun e => ~ is_partial_message e) events ->
  bufferText (run events st) = bufferText st /\
  live (document (run events st)) = live (document st).
Proof.
  revert st. induction events as [|e events IH]; intros st Hev; [done|].
  apply Forall_cons in Hev as [He Hev]. rewrite run_cons.
  destruct (IH (handle e st) Hev) as [-> ->]. by apply handle_buffer_live.
Qed.

(** X15: the transcript buffer is replaced as a whole and by partial
    frames only.  After any sequence of events the buffer and the live text
    are the text of the last partial frame received, on whichever socket
    it came; a sequence without a partial frame leaves both as they were. *)
Theorem transcript_is_last_partial (st : State) :
  (forall (events1 events2 : list Event) (h : nat) (data text : jsstring),
     partial_frame data text ->
     Forall (fun e => ~ is_partial_message e) events2 ->
     bufferText (run (events1 ++ SocketMessage h data :: events2) st) = text /\
     live (document (run (events1 ++ SocketMessage h data :: events2) st))
     = text) /\
  (forall events : list Event,
     Forall (fun e => ~ is_partial_message e) events ->
     bufferText (run events st) = bufferText st /\
     live (document (run events st)) = live (document st)).
Proof.
  split; [|intros events; apply run_buffer_live].
  intros events1 events2 h data text Hp Hev.
  rewrite run_app, run_cons.
  destruct (run_buffer_live events2
              (handle (SocketMessage h data) (run events1 st)) Hev)
    as [-> ->].
  by apply handle_partial.
Qed.

Lemma writes_buttons_exclusive st st' :
  writes st st' -> buttons_exclusive st -> buttons_exclusive st'.
Proof. induction 1; try done; auto. Qed.

Lemma handle_open_or_close e st :
  is_open_or_close e -> buttons_exclusive (handle e st).
Proof. by destruct e. Qed.

(** X16: once a socket has opened or closed, exactly one of the buttons
    "Connect" and "Disconnect" is enabled, whatever events follow; and
    where this holds to begin with, it holds after every sequence of
    events. *)
Theorem run_buttons_exclusive (events : list Event) (st : State) :
  (buttons_exclusive st -> buttons_exclusive (run events st)) /\
  (Exists is_open_or_close events -> buttons_exclusive (run events st)).
Proof.
  split.
  - apply (run_invariant buttons_exclusive), writes_buttons_exclusive.
  - revert st. induction events as [|e events IH]; intros st Hex.
    + by apply Exists_nil in Hex.
    + rewrite run_cons. apply Exists_cons in Hex as [He | Hex].
      * apply (run_invariant buttons_exclusive).
        -- apply writes_buttons_exclusive.
        -- by apply handle_open_or_close.
      * by apply IH.
Qed.

Lemma handle_ws_valid e st : ws_valid st -> ws_valid (handle e st).
Proof.
  intros Hv. destruct e; simpl; try done.
  - unfold connect.
    destruct (match ws st with Some _ => _ | None => _ end); [done|].
    intros h. simpl. intros [= <-]. by rewrite lookup_insert_eq.
  - unfold disconnect. destruct (ws st); [|done]. by intros h.
  - unfold searchNow_onclick.
    destruct (highlightMatches _ _) as [st'|] eqn:Hh; [|done]. simpl.
    apply highlightMatches_frame in Hh as (Hw & _ & _ & _ & Hs).
    intros h. rewrite Hw, Hs. apply Hv.
  - intros h'. simpl. intros Hw. apply lookup_alter_is_Some. by apply Hv.
  - destruct (ws_onmessage_cases data st)
      as [-> | (text & _ & [[_ ->] | [_ ->]])]; try done. simpl.
    destruct (highlightMatches _ _) as [st'|] eqn:Hh; [|done]. simpl.
    apply highlightMatches_frame in Hh as (Hw & _ & _ & _ & Hs).
    intros h'. rewrite Hw, Hs. apply Hv.
  - intros h'. simpl. intros Hw. apply lookup_alter_is_Some. by apply Hv.
Qed.

(** X17: [ws] never dangles: where it is [null] or one of the sockets
    created so far, as it is when the module is loaded, it still is after
    every sequence of events. *)
Theorem run_ws_valid (events : list Event) (st : State) :
  ws_valid st -> ws_valid (run events st).
Proof.
  revert st. induction events as [|e events IH]; intros st Hv; [done|].
  rewrite run_cons. by apply IH, handle_ws_valid.
Qed.

End LoopState.

(** X18: reconnecting.  While the socket [ws] refers to is open, a click
    on "Connect" does nothing.  After that socket has closed, [ws] still
    refers to it, and a click on "Connect" creates a new socket, distinct
    from the closed one, and points [ws] at it. *)
Theorem reconnect_after_close (h : nat) (st : State) :
  ws st = Some h ->
  is_Some (sockets st !! h) ->
  connect (ws_onopen (set_readyState h OPEN st))
  = ws_onopen (set_readyState h OPEN st) /\
  ws (ws_onclose (set_readyState h CLOSED st)) = Some h /\
  exists h' : nat,
    h' <> h /\
    ws (connect (ws_onclose (set_readyState h CLOSED st))) = Some h' /\
    sockets (connect (ws_onclose (set_readyState h CLOSED st))) !! h'
    = Some CONNECTING /\
    sockets (connect (ws_onclose (set_readyState h CLOSED st))) !! h
    = Some CLOSED.
Proof.
  intros Hws [rs Hrs]. split; [|split; [exact Hws|]].
  - apply connect_open with (h := h); [exact Hws|].
    simpl. by rewrite lookup_alter_eq, Hrs.
  - set (st1 := ws_onclose (set_readyState h CLOSED st)).
    assert (Hh : sockets st1 !! h = Some CLOSED).
    { simpl. by rewrite lookup_alter_eq, Hrs. }
    assert (Hno : forall h0, ws st1 = Some h0 -> sockets st1 !! h0 <> Some OPEN).
    { intros h0 Hw. simpl in Hw. rewrite Hws in Hw. injection Hw as <-.
      by rewrite Hh. }
    rewrite (connect_new st1 Hno).
    exists (fresh (dom (sockets st1))).
    assert (Hne : fresh (dom (sockets st1)) <> h).
    { intros E. pose proof (fresh_socket (sockets st1)) as Hf.
      rewrite E, Hh in Hf. discriminate. }
    split; [exact Hne|]. split; [done|]. split.
    + cbn [sockets set_ws]. by rewrite lookup_insert_eq.
    + cbn [sockets set_ws]. by rewrite lookup_insert_ne.
Qed.

(* ===================================================================== *)
(** ** Closed instances of the further properties                         *)
(* ===================================================================== *)


Lemma pear_search :
  @highlightMatches example_host (str "pear") pear_state = Some stale_state.
Proof. vm_compute. reflexivity. Qed.

Lemma clearHighlights_after_highlight_witness :
  @highlightMatches example_host (str "pear") pear_state = Some stale_state /\
  fill (sheet stale_state) !! (0, 1) = Some HIGHLIGHT_COLOR /\
  fill (sheet (clearHighlights stale_state))
  = fill (sheet (clearHighlights pear_state)) /\
  fill (sheet (clearHighlights stale_state)) !! (0, 1) = None.
Proof.
  split; [exact pear_search|]. split; [reflexivity|].
  destruct (@clearHighlights_after_highlight example_host (str "pear")
              pear_state stale_state pear_search) as [Hfill Hnone].
  split; [exact Hfill|]. apply Hnone. unfold in_range. simpl. lia.
Defined.

Lemma highlightMatches_after_clear_witness :
  whitespace_only (str "apple") = false /\
  @highlightMatches example_host (str "apple") (clearHighlights stale_state)
  = @highlightMatches example_host (str "apple") stale_state.
Proof.
  split; [reflexivity|].
  apply (@highlightMatches_after_clear example_host (str "apple") stale_state).
  reflexivity.
Defined.

Lemma same_query_same_sheet_witness :
  whitespace_only (str " Cat ") = false /\
  whitespace_only (str "cAT") = false /\
  @toLowerCase example_host (trim (str " Cat "))
  = @toLowerCase example_host (trim (str "cAT")) /\
  sheet <$> @highlightMatches example_host (str " Cat ") cat_state
  = sheet <$> @highlightMatches example_host (str "cAT") cat_state.
Proof.
  split; [reflexivity|]. split; [reflexivity|]. split; [reflexivity|].
  apply (@same_query_same_sheet example_host (str " Cat ") (str "cAT")
           cat_state); reflexivity.
Defined.

Lemma cat_search :
  @highlightMatches example_host (str " Cat ") cat_state
  = Some (highlighted (str " Cat ") [(0, 3); (2, 0)] cat_state).
Proof. vm_compute. reflexivity. Qed.

Lemma status_count_is_highlighted_count_witness :
  whitespace_only (str " Cat ") = false /\
  @highlightMatches example_host (str " Cat ") cat_state
  = Some (highlighted (str " Cat ") [(0, 3); (2, 0)] cat_state) /\
  filter (fun rc =>
            fill (sheet (highlighted (str " Cat ") [(0, 3); (2, 0)] cat_state))
            !! rc = Some HIGHLIGHT_COLOR)
    (row_major (usedRange (sheet cat_state))) = [(0, 3); (2, 0)].
Proof.
  assert (Hb : whitespace_only (str " Cat ") = false) by reflexivity.
  split; [exact Hb|]. split; [exact cat_search|].
  destruct (@status_count_is_highlighted_count example_host (str " Cat ")
              cat_state _ Hb cat_search) as (hits & Hs & Hf & _).
  rewrite cat_scan in Hs. injection Hs as <-. exact Hf.
Defined.

Lemma selected_is_highlighted_witness :
  whitespace_only (str " Cat ") = false /\
  @highlightMatches example_host (str " Cat ") cat_state
  = Some (highlighted (str " Cat ") [(0, 3); (2, 0)] cat_state) /\
  exists rc : nat * nat,
    selection (sheet (highlighted (str " Cat ") [(0, 3); (2, 0)] cat_state))
    = Some rc /\
    fill (sheet (highlighted (str " Cat ") [(0, 3); (2, 0)] cat_state)) !! rc
    = Some HIGHLIGHT_COLOR.
Proof.
  assert (Hb : whitespace_only (str " Cat ") = false) by reflexivity.
  split; [exact Hb|]. split; [exact cat_search|].
  destruct (@selected_is_highlighted example_host (str " Cat ") cat_state _
              Hb cat_search) as [[Hs _] | (rc & Hsel & _ & _ & Hfill)].
  - rewrite cat_scan in Hs. discriminate.
  - by exists rc.
Defined.

Lemma connect_cases_witness :
  ws fruit_state = None /\
  exists h' : nat,
    ws (connect fruit_state) = Some h' /\
    sockets (connect fruit_state) !! h' = Some CONNECTING.
Proof.
  split; [reflexivity|].
  destruct (connect_cases fruit_state) as [_ Hnew].
  destruct Hnew as (h' & Hws & _ & Hs & _); [discriminate|].
  by exists h'.
Defined.

Lemma connect_twice_leaks_witness :
  (forall h, ws fruit_state = Some h ->
     sockets fruit_state !! h <> Some OPEN) /\
  exists h1 h2 : nat,
    h1 <> h2 /\
    ws (disconnect (connect (connect fruit_state))) = None /\
    sockets (disconnect (connect (connect fruit_state))) !! h1
    = Some CONNECTING /\
    sockets (disconnect (connect (connect fruit_state))) !! h2 = Some CLOSING.
Proof.
  assert (Hno : forall h, ws fruit_state = Some h ->
                  sockets fruit_state !! h <> Some OPEN) by discriminate.
  split; [exact Hno|].
  destruct (connect_twice_leaks fruit_state Hno)
    as (h1 & h2 & Hne & _ & _ & _ & _ & Hws & H1 & H2).
  by exists h1, h2.
Defined.

Lemma threshold_edge_values_witness :
  @StringToNumber example_host (str "x") = NaN /\
  (@ws_onmessage example_host (frame (str "partial") (str "hello!"))
     (@threshold_onchange example_host (str "x") fruit_state)).1 = [] /\
  number_ge (Finite 0) (@StringToNumber example_host (str "0")) = true /\
  (@ws_onmessage example_host (frame (str "partial") (str "hello"))
     (@threshold_onchange example_host (str "0") fruit_state)).1
  = [str "hello"].
Proof.
  split; [reflexivity|].
  destruct (@threshold_edge_values example_host (str "x") fruit_state)
    as [Hnan _].
  split; [by apply Hnan|]. split; [reflexivity|].
  destruct (@threshold_edge_values example_host (str "0") fruit_state)
    as [_ Hzero].
  destruct (Hzero eq_refl) as [_ Hall]. apply Hall. exact hello_is_partial.
Defined.

Lemma spaces_is_partial :
  @partial_frame example_host (frame (str "partial") (str "      "))
    (str "      ").
Proof.
  eexists. split; [vm_compute; reflexivity|].
  split; vm_compute; reflexivity.
Defined.

Lemma blank_partial_frame_witness :
  @partial_frame example_host (frame (str "partial") (str "      "))
    (str "      ") /\
  whitespace_only (str "      ") = true /\
  at_threshold (str "      ") stale_state = true /\
  (@ws_onmessage example_host (frame (str "partial") (str "      "))
     stale_state).2
  = setLive (str "      ") (set_bufferText (str "      ") stale_state).
Proof.
  split; [exact spaces_is_partial|]. split; [reflexivity|].
  split; [reflexivity|].
  apply (@blank_partial_frame example_host _ (str "      ") stale_state).
  - exact spaces_is_partial.
  - reflexivity.
Defined.

Lemma searchNow_is_auto_search_witness :
  @partial_frame example_host (frame (str "partial") (str "hello"))
    (str "hello") /\
  at_threshold (str "hello") fruit_state = false /\
  sheet (@searchNow_onclick example_host
           (@ws_onmessage example_host (frame (str "partial") (str "hello"))
              fruit_state).2)
  = sheet (@ws_onmessage example_host (frame (str "partial") (str "hello"))
             (set_threshold (Finite 0) fruit_state)).2.
Proof.
  split; [exact hello_is_partial|]. split; [reflexivity|].
  destruct (@searchNow_is_auto_search example_host _ (str "hello") fruit_state
              hello_is_partial) as [_ Hbelow].
  by destruct (Hbelow eq_refl) as [Hsheet _].
Defined.

Lemma run_threshold_witness :
  Forall (fun e => ~ is_change e)
    [ClickConnect; SocketOpen 0;
     SocketMessage 0 (frame (str "partial") (str "hello!")); ClickSearchNow] /\
  autoSearchThreshold
    (@run example_host
       [ClickConnect; SocketOpen 0;
        SocketMessage 0 (frame (str "partial") (str "hello!")); ClickSearchNow]
       fruit_state)
  = Finite 6.
Proof.
  assert (Hev : Forall (fun e => ~ is_change e)
    [ClickConnect; SocketOpen 0;
     SocketMessage 0 (frame (str "partial") (str "hello!")); ClickSearchNow]).
  { repeat constructor; intros []. }
  split; [exact Hev|].
  match type of Hev with
  | Forall _ ?events =>
      destruct (@run_threshold example_host events fruit_state) as [Hsame _]
  end.
  rewrite (Hsame Hev). reflexivity.
Defined.

Lemma transcript_is_last_partial_witness :
  @partial_frame example_host (frame (str "partial") (str "hello"))
    (str "hello") /\
  Forall (fun e => ~ @is_partial_message example_host e)
    [SocketMessage 0 (str "{oops"); ClickSearchNow; SocketClose 0] /\
  bufferText
    (@run example_host
       ([ClickConnect; SocketOpen 0;
         SocketMessage 0 (frame (str "partial") (str "hello!"))] ++
        SocketMessage 0 (frame (str "partial") (str "hello")) ::
        [SocketMessage 0 (str "{oops"); ClickSearchNow; SocketClose 0])
       fruit_state)
  = str "hello".
Proof.
  assert (Hev : Forall (fun e => ~ @is_partial_message example_host e)
    [SocketMessage 0 (str "{oops"); ClickSearchNow; SocketClose 0]).
  { repeat constructor; intros (h & data & text & E & Hp);
      try discriminate.
    injection E as _ <-. destruct Hp as (members & Hparse & _).
    discriminate. }
  split; [exact hello_is_partial|]. split; [exact Hev|].
  destruct (@transcript_is_last_partial example_host fruit_state)
    as [Hlast _].
  by destruct (Hlast
                 [ClickConnect; SocketOpen 0;
                  SocketMessage 0 (frame (str "partial") (str "hello!"))]
                 _ 0 _ _ hello_is_partial Hev) as [Hb _].
Defined.

Lemma run_buttons_exclusive_witness :
  Exists is_open_or_close [ClickConnect; SocketOpen 0; ClickDisconnect] /\
  buttons_exclusive
    (@run example_host [ClickConnect; SocketOpen 0; ClickDisconnect]
       fruit_state).
Proof.
  assert (Hex : Exists is_open_or_close
                  [ClickConnect; SocketOpen 0; ClickDisconnect]).
  { apply Exists_cons_tl, Exists_cons_hd. exact I. }
  split; [exact Hex|].
  by apply (@run_buttons_exclusive example_host).
Defined.

Lemma run_ws_valid_witness :
  ws_valid fruit_state /\
  ws_valid
    (@run example_host
       [ClickConnect; ClickConnect; SocketOpen 1; ClickDisconnect;
        SocketClose 1; ClickConnect]
       fruit_state).
Proof.
  assert (Hv : ws_valid fruit_state) by (intros h; discriminate).
  split; [exact Hv|].
  by apply (@run_ws_valid example_host).
Defined.

Lemma reconnect_after_close_witness :
  ws (connect fruit_state) = Some 0 /\
  is_Some (sockets (connect fruit_state) !! 0) /\
  exists h' : nat,
    h' <> 0 /\
    ws (connect (ws_onclose (set_readyState 0 CLOSED (connect fruit_state))))
    = Some h'.
Proof.
  assert (Hws : ws (connect fruit_state) = Some 0) by reflexivity.
  assert (Hs : is_Some (sockets (connect fruit_state) !! 0))
    by (by exists CONNECTING).
  split; [exact Hws|]. split; [exact Hs|].
  destruct (reconnect_after_close 0 (connect fruit_state) Hws Hs)
    as (_ & _ & h' & Hne & Hw & _).
  by exists h'.
Defined.
